(** * Employee management system: the data-access layer ([db/operations.py])

    A shallow embedding of the operations module and of the part of the
    relational store it talks to, followed by the properties of the
    operations.

    The store is PostgreSQL reached through psycopg2.  Its tables are lists
    of rows (heap order), its two [SERIAL] columns draw from sequences, and
    each SQL statement of the module is a function on that state which
    either succeeds or reports a [psycopg2_Error].  The Python functions
    are written in a state-and-exception monad over the store.

    Modelling boundaries, stated once:
    - strings are byte strings; case folding ([str.lower], [ILIKE]) folds
      the ASCII letters only;
    - [salary] is a [DECIMAL(10,2)] value, held as a number of hundredths;
    - arguments are values of their column's type, so the width and
      precision coercions of [VARCHAR(100)] and [DECIMAL(10,2)] do not
      occur; the server answers (no connectivity failure) and words its
      messages in its default English catalogue;
    - [logger] calls write to a log that no operation reads; they are
      left out;
    - of [app.py], the routes that take their arguments from the URL and
      the query string are modelled; whitespace ([str.strip]) is the ASCII
      whitespace. *)

From Stdlib Require Import ZArith List Bool Ascii String Lia Sorting.Sorted.
From Stdlib Require Import DecimalString.
From Stdlib Require Sorting.Permutation.
Import ListNotations.
Local Open Scope string_scope.
Local Open Scope Z_scope.

(* ================================================================== *)
(** ** Strings *)

Module Str.

(** One ASCII letter in lower case, any other byte unchanged. *)
Definition lower_ascii (c : ascii) : ascii :=
  let n := nat_of_ascii c in
  if andb (Nat.leb 65 n) (Nat.leb n 90) then ascii_of_nat (n + 32) else c.

(** [s.lower()] *)
Fixpoint lower (s : string) : string :=
  match s with
  | EmptyString => EmptyString
  | String c s' => String (lower_ascii c) (lower s')
  end.

(** [s.startswith(p)], written [prefix p s]. *)
Fixpoint prefix (p s : string) : bool :=
  match p with
  | EmptyString => true
  | String a p' =>
      match s with
      | EmptyString => false
      | String b s' => Ascii.eqb a b && prefix p' s'
      end
  end.

(** [needle in hay] *)
Fixpoint contains (needle hay : string) : bool :=
  prefix needle hay
  || match hay with
     | EmptyString => false
     | String _ hay' => contains needle hay'
     end.

(** Does the byte [c] occur in [s]? *)
Fixpoint mem (c : ascii) (s : string) : bool :=
  match s with
  | EmptyString => false
  | String a s' => Ascii.eqb a c || mem c s'
  end.

(** Is every byte of [s] one an integer is printed with? *)
Definition is_num_char (c : ascii) : bool := mem c "-0123456789".

Fixpoint numeric (s : string) : bool :=
  match s with
  | EmptyString => true
  | String a s' => is_num_char a && numeric s'
  end.

(** Does no byte of [s] occur in [n]? *)
Fixpoint avoids (n s : string) : bool :=
  match s with
  | EmptyString => true
  | String a s' => negb (mem a n) && avoids n s'
  end.

Definition dquote : string := String (ascii_of_nat 34) EmptyString.
Definition newline : string := String (ascii_of_nat 10) EmptyString.
Definition quoted (s : string) : string := dquote ++ s ++ dquote.

(** [str(n)] for an integer, as the server prints integer keys. *)
Definition of_Z (z : Z) : string := NilZero.string_of_int (Z.to_int z).

End Str.

(* ================================================================== *)
(** ** The store's pattern matching: [LIKE] and [ILIKE] *)

Module Like.

Definition percent : ascii := "%"%char.
Definition underscore : ascii := "_"%char.
Definition backslash : ascii := ascii_of_nat 92.

(** [text LIKE pat] with the default escape character.  [%] stands for
    any run of bytes, [_] for any one byte, a backslash makes the next
    pattern byte stand for itself.  A pattern that ends in a lone
    backslash is an error in the server; it matches nothing here, and
    [pattern_never_dangles] below shows that the search never builds
    one. *)
Fixpoint like (pat text : string) {struct pat} : bool :=
  match pat with
  | EmptyString =>
      match text with EmptyString => true | String _ _ => false end
  | String p pat' =>
      if Ascii.eqb p percent then
        (fix any (t : string) : bool :=
           like pat' t
           || match t with
              | EmptyString => false
              | String _ t' => any t'
              end) text
      else if Ascii.eqb p underscore then
        match text with
        | EmptyString => false
        | String _ t' => like pat' t'
        end
      else if Ascii.eqb p backslash then
        match pat' with
        | EmptyString => false
        | String q pat'' =>
            match text with
            | EmptyString => false
            | String c t' => Ascii.eqb q c && like pat'' t'
            end
        end
      else
        match text with
        | EmptyString => false
        | String c t' => Ascii.eqb p c && like pat' t'
        end
  end.

(** [text ILIKE pat]: [LIKE] on the case-folded operands. *)
Definition ilike (text pat : string) : bool :=
  like (Str.lower pat) (Str.lower text).

(** Does the pattern end in a backslash that escapes nothing? *)
Fixpoint dangling_escape (pat : string) : bool :=
  match pat with
  | EmptyString => false
  | String p pat' =>
      if Ascii.eqb p backslash then
        match pat' with
        | EmptyString => true
        | String _ pat'' => dangling_escape pat''
        end
      else dangling_escape pat'
  end.

(** A byte with a special meaning in a pattern. *)
Definition is_meta (c : ascii) : bool :=
  Ascii.eqb c percent || Ascii.eqb c underscore || Ascii.eqb c backslash.

Fixpoint has_meta (s : string) : bool :=
  match s with
  | EmptyString => false
  | String c s' => is_meta c || has_meta s'
  end.

End Like.

(* ================================================================== *)
(** ** The persisted schema ([init_db]) *)

(** [DECIMAL(10,2)], in hundredths. *)
Definition decimal : Type := Z.

(** A row of [departments (id SERIAL PRIMARY KEY, name UNIQUE NOT NULL)]. *)
Record department : Type := mkDepartment {
  d_id : Z;
  d_name : string
}.

(** A row of [employees]: [department_id] and [salary] are nullable. *)
Record employee : Type := mkEmployee {
  e_id : Z;
  e_name : string;
  e_email : string;
  e_department_id : option Z;
  e_salary : option decimal
}.

(** The store: both tables in heap order and the next value of the two
    sequences behind the [SERIAL] columns. *)
Record database : Type := mkDatabase {
  departments : list department;
  employees : list employee;
  departments_id_seq : Z;
  employees_id_seq : Z
}.

(** The store right after [init_db] ran on an empty database. *)
Definition empty_db : database := mkDatabase [] [] 1 1.

(** [CREATE TABLE IF NOT EXISTS]: tables that exist are left alone. *)
Definition init_db (store : option database) : database :=
  match store with
  | Some db => db
  | None => empty_db
  end.

Definition set_departments (ds : list department) (db : database) : database :=
  mkDatabase ds (employees db) (departments_id_seq db) (employees_id_seq db).

Definition set_employees (es : list employee) (db : database) : database :=
  mkDatabase (departments db) es (departments_id_seq db) (employees_id_seq db).

Definition department_ids (db : database) : list Z := map d_id (departments db).
Definition department_names (db : database) : list string :=
  map d_name (departments db).
Definition employee_ids (db : database) : list Z := map e_id (employees db).
Definition employee_emails (db : database) : list string :=
  map e_email (employees db).

(** Is employee [e] assigned to department [d]? *)
Definition references (d : Z) (e : employee) : bool :=
  match e_department_id e with
  | Some d' => d' =? d
  | None => false
  end.

(** The constraints the schema declares, and the sequences ahead of every
    id they have handed out.  Every operation keeps them (section
    "Invariant" below). *)
Record wf (db : database) : Prop := mkWf {
  wf_dept_pkey : NoDup (department_ids db);
  wf_dept_name : NoDup (department_names db);
  wf_emp_pkey : NoDup (employee_ids db);
  wf_emp_email : NoDup (employee_emails db);
  wf_fkey : forall e d, In e (employees db) ->
            e_department_id e = Some d -> In d (department_ids db);
  wf_dept_seq : forall i, In i (department_ids db) -> i < departments_id_seq db;
  wf_emp_seq : forall i, In i (employee_ids db) -> i < employees_id_seq db
}.
Arguments wf_dept_pkey {db} _.
Arguments wf_dept_name {db} _.
Arguments wf_emp_pkey {db} _.
Arguments wf_emp_email {db} _.
Arguments wf_fkey {db} _ _ _ _ _.
Arguments wf_dept_seq {db} _ _ _.
Arguments wf_emp_seq {db} _ _ _.

(* ================================================================== *)
(** ** Exceptions *)

(** The classes of [psycopg2.Error]. *)
Inductive psycopg2_class : Type :=
| InterfaceError | DataError | OperationalError | IntegrityError
| InternalError | ProgrammingError | NotSupportedError.

(** What a [psycopg2.Error] carries: its class, the SQLSTATE ([e.pgcode]),
    the violated constraint ([e.diag.constraint_name]) and its text
    ([str(e)]). *)
Record psycopg2_Error : Type := mkError {
  err_class : psycopg2_class;
  pgcode : string;
  diag_constraint_name : option string;
  err_str : string
}.

Definition is_IntegrityError (e : psycopg2_Error) : bool :=
  match err_class e with
  | IntegrityError => true
  | _ => false
  end.

(** The exceptions that leave the module. *)
Inductive exn : Type :=
| ValueError (msg : string)
| Psycopg2 (e : psycopg2_Error).

Inductive result (A : Type) : Type :=
| Returns (a : A)
| Raises (x : exn).
Arguments Returns {A} a.
Arguments Raises {A} x.

(** The domain error kinds, as the module raises them. *)
Definition DuplicateName : exn := ValueError "Department name must be unique!".
Definition DuplicateEmail : exn := ValueError "Email already exists!".
Definition InvalidDepartment : exn := ValueError "Invalid department ID!".
Definition HasDependents : exn :=
  ValueError "Cannot delete: department has employees. Reassign them first.".


(** The server's errors, in its English wording. *)
Definition unique_violation (constraint column value : string) : psycopg2_Error :=
  mkError IntegrityError "23505" (Some constraint)
    ("duplicate key value violates unique constraint " ++ Str.quoted constraint
     ++ Str.newline
     ++ "DETAIL:  Key (" ++ column ++ ")=(" ++ value ++ ") already exists."
     ++ Str.newline).

Definition foreign_key_violation (table constraint column : string) (value : Z)
    (target : string) : psycopg2_Error :=
  mkError IntegrityError "23503" (Some constraint)
    (("insert or update on table " ++ Str.quoted table
      ++ " violates foreign key constraint " ++ Str.quoted constraint
      ++ Str.newline
      ++ "DETAIL:  Key (" ++ column ++ ")=(")
     ++ Str.of_Z value
     ++ (") is not present in table " ++ Str.quoted target ++ "."
         ++ Str.newline)).

(* ================================================================== *)
(** ** State and exceptions *)

(** A computation over a state [S] that returns or raises. *)
Definition SE (S A : Type) : Type := S -> S * result A.

Definition ret {S A : Type} (a : A) : SE S A := fun s => (s, Returns a).

Definition raise {S A : Type} (x : exn) : SE S A := fun s => (s, Raises x).

Definition bind {S A B : Type} (m : SE S A) (k : A -> SE S B) : SE S B :=
  fun s =>
    match m s with
    | (s', Returns a) => k a s'
    | (s', Raises x) => (s', Raises x)
    end.

Declare Scope se_scope.
Delimit Scope se_scope with se.
Notation "x <- m ;; k" := (bind m (fun x => k))
  (at level 61, m at next level, right associativity) : se_scope.
Notation "m ;; k" := (bind m (fun _ => k))
  (at level 61, right associativity) : se_scope.
Local Open Scope se_scope.

(** [try: body except ...: handler] *)
Definition try_except {S A : Type} (body : SE S A) (handler : exn -> SE S A)
    : SE S A :=
  fun s =>
    match body s with
    | (s', Returns a) => (s', Returns a)
    | (s', Raises x) => handler x s'
    end.

(** An operation of the module acts on the store. *)
Definition Op (A : Type) : Type := SE database A.

(* ================================================================== *)
(** ** Connections *)

(** An open connection: what the store holds durably, and the state the
    connection's transaction sees. *)
Record connection : Type := mkConnection {
  durable : database;
  working : database
}.

Definition Tx (A : Type) : Type := SE connection A.

(** [cur.execute(statement)] *)
Definition execute {A : Type} (statement : Op A) : Tx A :=
  fun c =>
    let (w, r) := statement (working c) in
    (mkConnection (durable c) w, r).

(** [conn.commit()] *)
Definition commit : Tx unit :=
  fun c => (mkConnection (working c) (working c), Returns tt).

(** Rolling back restores the tables; a sequence never goes back. *)
Definition rollback (c : connection) : database :=
  mkDatabase (departments (durable c)) (employees (durable c))
    (departments_id_seq (working c)) (employees_id_seq (working c)).

(** [with get_connection() as conn: with conn.cursor() as cur: body]:
    leaving the block commits, leaving it by an exception rolls back. *)
Definition with_connection {A : Type} (body : Tx A) : Op A :=
  fun db =>
    match body (mkConnection db db) with
    | (c, Returns a) => (working c, Returns a)
    | (c, Raises x) => (rollback c, Raises x)
    end.

(** [cur.fetchone()], [cur.fetchall()] *)
Definition fetchone {R : Type} (rows : list R) : option R := hd_error rows.
Definition fetchall {R : Type} (rows : list R) : list R := rows.

(* ================================================================== *)
(** ** The statements *)

Module Sql.

(** [ORDER BY key]: a stable sort. *)
Fixpoint insert_by {R : Type} (key : R -> Z) (r : R) (rows : list R) : list R :=
  match rows with
  | [] => [r]
  | r' :: rows' =>
      if key r <=? key r' then r :: rows else r' :: insert_by key r rows'
  end.

Fixpoint order_by {R : Type} (key : R -> Z) (rows : list R) : list R :=
  match rows with
  | [] => []
  | r :: rows' => insert_by key r (order_by key rows')
  end.

(** [INSERT INTO departments (name) VALUES (%s);] *)
Definition insert_department (name : string) : Op unit :=
  fun db =>
    let id := departments_id_seq db in
    let db1 := mkDatabase (departments db) (employees db) (id + 1)
                 (employees_id_seq db) in
    if existsb (fun d => d_id d =? id) (departments db) then
      (db1, Raises (Psycopg2
         (unique_violation "departments_pkey" "id" (Str.of_Z id))))
    else if existsb (fun d => String.eqb (d_name d) name) (departments db) then
      (db1, Raises (Psycopg2
         (unique_violation "departments_name_key" "name" name)))
    else
      (set_departments (departments db ++ [mkDepartment id name]) db1,
       Returns tt).

(** [SELECT id FROM employees WHERE department_id = %s LIMIT 1;] *)
Definition select_employee_of_department (dept_id : Z) : Op (list Z) :=
  fun db =>
    (db, Returns (firstn 1 (map e_id (filter (references dept_id) (employees db))))).

(** [ON DELETE SET NULL] *)
Definition clear_department (dept_id : Z) (e : employee) : employee :=
  if references dept_id e
  then mkEmployee (e_id e) (e_name e) (e_email e) None (e_salary e)
  else e.

(** [DELETE FROM departments WHERE id = %s;], giving [cur.rowcount]. *)
Definition delete_department (dept_id : Z) : Op nat :=
  fun db =>
    let gone := filter (fun d => d_id d =? dept_id) (departments db) in
    let kept := filter (fun d => negb (d_id d =? dept_id)) (departments db) in
    match gone with
    | [] => (db, Returns 0%nat)
    | _ :: _ =>
        (mkDatabase kept (map (clear_department dept_id) (employees db))
           (departments_id_seq db) (employees_id_seq db),
         Returns (List.length gone))
    end.

(** [INSERT INTO employees (name, email, department_id, salary)
     VALUES (%s, %s, %s, %s);] *)
Definition insert_employee (name email : string) (dept_id : option Z)
    (salary : option decimal) : Op unit :=
  fun db =>
    let id := employees_id_seq db in
    let db1 := mkDatabase (departments db) (employees db)
                 (departments_id_seq db) (id + 1) in
    if existsb (fun e => e_id e =? id) (employees db) then
      (db1, Raises (Psycopg2
         (unique_violation "employees_pkey" "id" (Str.of_Z id))))
    else if existsb (fun e => String.eqb (e_email e) email) (employees db) then
      (db1, Raises (Psycopg2
         (unique_violation "employees_email_key" "email" email)))
    else
      match dept_id with
      | Some d =>
          if existsb (fun r => d_id r =? d) (departments db) then
            (set_employees
               (employees db ++ [mkEmployee id name email dept_id salary]) db1,
             Returns tt)
          else
            (db1, Raises (Psycopg2
               (foreign_key_violation "employees" "employees_department_id_fkey"
                  "department_id" d "departments")))
      | None =>
          (set_employees
             (employees db ++ [mkEmployee id name email dept_id salary]) db1,
           Returns tt)
      end.

(** [FROM employees e LEFT JOIN departments d ON e.department_id = d.id] *)
Definition left_join (ds : list department) (e : employee)
    : list (employee * option department) :=
  match filter (fun d => references (d_id d) e) ds with
  | [] => [(e, None)]
  | d :: ds' => map (fun d => (e, Some d)) (d :: ds')
  end.

(** A row of the employee listing:
    [e.id, e.name, e.email, d.name AS department, e.salary]. *)
Definition listing : Type :=
  (Z * string * string * option string * option decimal)%type.

Definition select_listing (r : employee * option department) : listing :=
  let (e, d) := r in
  (e_id e, e_name e, e_email e, option_map d_name d, e_salary e).

Definition listing_id (row : listing) : Z :=
  let '(i, _, _, _, _) := row in i.


(** [SELECT ... FROM employees e LEFT JOIN departments d ... ORDER BY e.id;] *)
Definition select_employees : Op (list listing) :=
  fun db =>
    let joined := flat_map (left_join (departments db)) (employees db) in
    (db, Returns (map select_listing
                    (order_by (fun r => e_id (fst r)) joined))).

(** [SELECT ... LEFT JOIN ... WHERE e.name ILIKE %s ORDER BY e.id;] *)
Definition select_employees_ilike (pattern : string) : Op (list listing) :=
  fun db =>
    let joined := flat_map (left_join (departments db)) (employees db) in
    let matching :=
      filter (fun r => Like.ilike (e_name (fst r)) pattern) joined in
    (db, Returns (map select_listing
                    (order_by (fun r => e_id (fst r)) matching))).

(** One [column = %s] of an [UPDATE ... SET] list, with its value. *)
Inductive assignment : Type :=
| SetName (v : string)
| SetEmail (v : string)
| SetDepartmentId (v : Z)
| SetSalary (v : decimal).

Definition assign (e : employee) (a : assignment) : employee :=
  match a with
  | SetName v =>
      mkEmployee (e_id e) v (e_email e) (e_department_id e) (e_salary e)
  | SetEmail v =>
      mkEmployee (e_id e) (e_name e) v (e_department_id e) (e_salary e)
  | SetDepartmentId v =>
      mkEmployee (e_id e) (e_name e) (e_email e) (Some v) (e_salary e)
  | SetSalary v =>
      mkEmployee (e_id e) (e_name e) (e_email e) (e_department_id e) (Some v)
  end.

Definition assign_all (fields : list assignment) (e : employee) : employee :=
  fold_left assign fields e.

Definition sets_email (a : assignment) : bool :=
  match a with SetEmail _ => true | _ => false end.

Definition sets_department (a : assignment) : bool :=
  match a with SetDepartmentId _ => true | _ => false end.

(** [UPDATE employees SET <fields> WHERE id = %s;], giving [cur.rowcount].
    A row that is not touched is not checked; a new email must not be
    held by another row, a new department must exist. *)
Definition update_employees (fields : list assignment) (emp_id : Z) : Op nat :=
  fun db =>
    let hit := fun e => e_id e =? emp_id in
    let rows :=
      map (fun e => if hit e then assign_all fields e else e) (employees db) in
    let updated := filter hit rows in
    let taken := fun u =>
      existsb sets_email fields
      && (1 <? List.length (filter (fun r => String.eqb (e_email r) (e_email u)) rows))%nat in
    let dangling := fun u =>
      existsb sets_department fields
      && match e_department_id u with
         | Some d => negb (existsb (fun r => d_id r =? d) (departments db))
         | None => false
         end in
    match find taken updated with
    | Some u =>
        (db, Raises (Psycopg2
           (unique_violation "employees_email_key" "email" (e_email u))))
    | None =>
        match find dangling updated with
        | Some u =>
            (db, Raises (Psycopg2
               (foreign_key_violation "employees" "employees_department_id_fkey"
                  "department_id"
                  (match e_department_id u with Some d => d | None => 0 end)
                  "departments")))
        | None => (set_employees rows db, Returns (List.length updated))
        end
    end.

(** [DELETE FROM employees WHERE id = %s;], giving [cur.rowcount]. *)
Definition delete_employee (emp_id : Z) : Op nat :=
  fun db =>
    let gone := filter (fun e => e_id e =? emp_id) (employees db) in
    let kept := filter (fun e => negb (e_id e =? emp_id)) (employees db) in
    (set_employees kept db, Returns (List.length gone)).

(** A row of [SELECT e.id, e.name, e.email, e.department_id, e.salary]. *)
Definition record : Type :=
  (Z * string * string * option Z * option decimal)%type.

Definition select_record (e : employee) : record :=
  (e_id e, e_name e, e_email e, e_department_id e, e_salary e).

(** [SELECT ... FROM employees e WHERE e.id = %s;] *)
Definition select_employee_by_id (emp_id : Z) : Op (list record) :=
  fun db =>
    (db, Returns (map select_record
                    (filter (fun e => e_id e =? emp_id) (employees db)))).

End Sql.

(* ================================================================== *)
(** ** Department operations *)

(** The [except] clauses of [add_department]: every [IntegrityError]
    becomes the duplicate-name error, anything else is raised again. *)
Definition add_department_except (x : exn) : exn :=
  match x with
  | Psycopg2 e => if is_IntegrityError e then DuplicateName else x
  | ValueError _ => x
  end.

Definition add_department (name : string) : Op unit :=
  try_except
    (with_connection
       (execute (Sql.insert_department name) ;;
        commit))
    (fun x => raise (add_department_except x)).

Definition delete_department (dept_id : Z) : Op bool :=
  try_except
    (with_connection
       (rows <- execute (Sql.select_employee_of_department dept_id) ;;
        match fetchone rows with
        | Some _ => raise HasDependents
        | None =>
            rowcount <- execute (Sql.delete_department dept_id) ;;
            let deleted := (0 <? rowcount)%nat in
            (if deleted then commit else ret tt) ;;
            ret deleted
        end))
    (fun x => raise x).

(* ================================================================== *)
(** ** Employee operations *)

(** The [except] clauses of [add_employee]: an [IntegrityError] is told
    apart by the words of its lower-cased text. *)
Definition add_employee_except (x : exn) : exn :=
  match x with
  | Psycopg2 e =>
      if is_IntegrityError e then
        let msg := Str.lower (err_str e) in
        if Str.contains "unique constraint" msg
           || Str.contains "duplicate key" msg
        then DuplicateEmail
        else if Str.contains "foreign key" msg then InvalidDepartment
        else x
      else x
  | ValueError _ => x
  end.

(** [salary] is the value passed; [add_employee_default] is the call that
    leaves it out. *)
Definition add_employee (name email : string) (dept_id : option Z)
    (salary : option decimal) : Op unit :=
  try_except
    (with_connection
       (execute (Sql.insert_employee name email dept_id salary) ;;
        commit))
    (fun x => raise (add_employee_except x)).

Definition add_employee_default (name email : string) (dept_id : option Z)
    : Op unit :=
  add_employee name email dept_id (Some 0).

Definition get_all_employees : Op (list Sql.listing) :=
  with_connection
    (rows <- execute Sql.select_employees ;;
     ret (fetchall rows)).

(** The pattern is [f"%{name_part}%"]. *)
Definition search_pattern (name_part : string) : string :=
  "%" ++ name_part ++ "%".

Definition search_employees_by_name (name_part : string) : Op (list Sql.listing) :=
  with_connection
    (rows <- execute (Sql.select_employees_ilike (search_pattern name_part)) ;;
     ret (fetchall rows)).

(** The specification's reading of the search, to compare the code with:
    the name holds the fragment as a substring, the case of letters set
    aside. *)
Definition contains_ignoring_case (fragment name : string) : bool :=
  Str.contains (Str.lower fragment) (Str.lower name).

(** The [except] clauses of [update_employee], the same as in
    [add_employee]. *)
Definition update_employee_except (x : exn) : exn :=
  match x with
  | Psycopg2 e =>
      if is_IntegrityError e then
        let msg := Str.lower (err_str e) in
        if Str.contains "unique constraint" msg
           || Str.contains "duplicate key" msg
        then DuplicateEmail
        else if Str.contains "foreign key" msg then InvalidDepartment
        else x
      else x
  | ValueError _ => x
  end.

(** The [fields] and [values] lists, built by the four [is not None]
    tests in their order. *)
Definition update_fields (name email : option string) (dept_id : option Z)
    (salary : option decimal) : list Sql.assignment :=
  let fields : list Sql.assignment := [] in
  let fields :=
    match name with Some v => (fields ++ [Sql.SetName v])%list | None => fields end in
  let fields :=
    match email with Some v => (fields ++ [Sql.SetEmail v])%list | None => fields end in
  let fields :=
    match dept_id with
    | Some v => (fields ++ [Sql.SetDepartmentId v])%list
    | None => fields
    end in
  let fields :=
    match salary with Some v => (fields ++ [Sql.SetSalary v])%list | None => fields end in
  fields.

(** An argument that is [None] is an argument left out. *)
Definition update_employee (emp_id : Z) (name email : option string)
    (dept_id : option Z) (salary : option decimal) : Op bool :=
  try_except
    (with_connection
       (let fields := update_fields name email dept_id salary in
        match fields with
        | [] => ret true
        | _ :: _ =>
            rowcount <- execute (Sql.update_employees fields emp_id) ;;
            let updated := (0 <? rowcount)%nat in
            (if updated then commit else ret tt) ;;
            ret updated
        end))
    (fun x => raise (update_employee_except x)).

(** The row an update leaves behind: each argument that is not [None]
    replaces its column, the other columns stay. *)
Definition updated_row (name email : option string) (dept_id : option Z)
    (salary : option decimal) (e : employee) : employee :=
  mkEmployee (e_id e)
    (match name with Some v => v | None => e_name e end)
    (match email with Some v => v | None => e_email e end)
    (match dept_id with Some v => Some v | None => e_department_id e end)
    (match salary with Some v => Some v | None => e_salary e end).

Definition delete_employee (emp_id : Z) : Op bool :=
  try_except
    (with_connection
       (rowcount <- execute (Sql.delete_employee emp_id) ;;
        let deleted := (0 <? rowcount)%nat in
        (if deleted then commit else ret tt) ;;
        ret deleted))
    (fun x => raise x).

Definition get_employee_by_id (emp_id : Z) : Op (option Sql.record) :=
  with_connection
    (rows <- execute (Sql.select_employee_by_id emp_id) ;;
     ret (fetchone rows)).

(* ================================================================== *)
(** ** The department listing *)

Section Collation.

(** [ORDER BY name] follows the collation of the database, which is fixed
    when the database is created: [name_le a b] says that [a] sorts no
    later than [b]. *)
Variable name_le : string -> string -> bool.

Fixpoint insert_by_name (r : department) (rows : list department)
    : list department :=
  match rows with
  | [] => [r]
  | r' :: rows' =>
      if name_le (d_name r) (d_name r') then r :: rows
      else r' :: insert_by_name r rows'
  end.

Fixpoint order_by_name (rows : list department) : list department :=
  match rows with
  | [] => []
  | r :: rows' => insert_by_name r (order_by_name rows')
  end.

(** [SELECT id, name FROM departments ORDER BY name;] *)
Definition select_departments : Op (list (Z * string)) :=
  fun db =>
    (db, Returns (map (fun d => (d_id d, d_name d))
                    (order_by_name (departments db)))).

Definition get_all_departments : Op (list (Z * string)) :=
  with_connection
    (rows <- execute select_departments ;;
     ret (fetchall rows)).

End Collation.

(* ================================================================== *)
(** ** The routes ([app.py]) *)

(** What a request works on: the store and the messages flashed into the
    session, each with its category. *)
Record webapp : Type := mkApp {
  store : database;
  flashes : list (string * string)
}.

(** What a route answers with. *)
Inductive response : Type :=
| Redirect (endpoint : string)
| IndexPage (employees : list Sql.listing) (search_query : string).

Definition Route (A : Type) : Type := SE webapp A.

(** A call into the operations module. *)
Definition call {A : Type} (op : Op A) : Route A :=
  fun a =>
    let (db, r) := op (store a) in
    (mkApp db (flashes a), r).

(** [flash(message, category)] *)
Definition flash (message category : string) : Route unit :=
  fun a =>
    (mkApp (store a) (flashes a ++ [(message, category)]), Returns tt).

(** [redirect(url_for(endpoint))] *)
Definition redirect (endpoint : string) : Route response :=
  ret (Redirect endpoint).






Definition delete_employee_route (emp_id : Z) : Route response :=
  deleted <- call (delete_employee emp_id) ;;
  (if deleted
   then flash "✅ Employee deleted successfully!" "success"
   else flash "❌ Employee not found." "error") ;;
  redirect "index".

(** The [except ValueError as e] clause: the message of the error is
    flashed; any other exception goes on. *)
Definition delete_department_route (dept_id : Z) : Route response :=
  try_except
    (deleted <- call (delete_department dept_id) ;;
     if deleted
     then flash "✅ Department deleted successfully!" "success"
     else flash "❌ Department not found." "error")
    (fun x =>
       match x with
       | ValueError e => flash ("❌ " ++ e) "error"
       | Psycopg2 _ => raise x
       end) ;;
  redirect "department_list".


(* ================================================================== *)
(** ** The stores the module can produce *)

(** One call of an operation that writes. *)
Inductive step (db : database) : database -> Prop :=
| step_add_department (name : string) :
    step db (fst (add_department name db))
| step_delete_department (dept_id : Z) :
    step db (fst (delete_department dept_id db))
| step_add_employee (name email : string) (dept_id : option Z)
    (salary : option decimal) :
    step db (fst (add_employee name email dept_id salary db))
| step_update_employee (emp_id : Z) (name email : option string)
    (dept_id : option Z) (salary : option decimal) :
    step db (fst (update_employee emp_id name email dept_id salary db))
| step_delete_employee (emp_id : Z) :
    step db (fst (delete_employee emp_id db)).

(** From the empty store of [init_db], any number of calls. *)
Inductive reachable : database -> Prop :=
| reachable_init : reachable (init_db None)
| reachable_step (db db' : database) :
    reachable db -> step db db' -> reachable db'.

(* ================================================================== *)
(** ** A small company, for the examples *)

Definition engineering : department := mkDepartment 1 "Engineering".
Definition sales : department := mkDepartment 2 "Sales".

Definition ana : employee :=
  mkEmployee 1 "Ana" "ana@x.com" (Some 1) (Some 9500000).
Definition diana : employee :=
  mkEmployee 2 "DIANA" "diana@x.com" None (Some 0).
Definition bob : employee :=
  mkEmployee 3 "Bob" "bob@x.com" (Some 1) None.

Definition company : database :=
  mkDatabase [engineering; sales] [ana; diana; bob] 3 4.

(* ================================================================== *)
(** ** Facts about strings *)

Module StrFacts.
Import Str.

Lemma lower_app (a b : string) : lower (a ++ b) = lower a ++ lower b.
Proof.
  induction a as [|c a IH]; simpl; [reflexivity | now rewrite IH].
Qed.

Lemma is_num_char_lower (c : ascii) :
  is_num_char c = true -> lower_ascii c = c.
Proof.
  unfold is_num_char; cbn [mem]; intros H.
  repeat (apply orb_true_iff in H; destruct H as [H|H]);
    try (apply Ascii.eqb_eq in H; subst c; reflexivity).
  discriminate.
Qed.

Lemma lower_numeric (s : string) : numeric s = true -> lower s = s.
Proof.
  induction s as [|c s IH]; simpl; intros H; [reflexivity|].
  apply andb_true_iff in H; destruct H as [Hc Hs].
  now rewrite (is_num_char_lower _ Hc), (IH Hs).
Qed.

Lemma numeric_of_uint (d : Decimal.uint) :
  numeric (NilEmpty.string_of_uint d) = true.
Proof. induction d; simpl; auto. Qed.

Lemma numeric_of_Z (z : Z) : numeric (of_Z z) = true.
Proof.
  unfold of_Z. destruct (Z.to_int z) as [d|d]; simpl.
  - destruct d; simpl; auto using numeric_of_uint.
  - destruct d; simpl; auto using numeric_of_uint.
Qed.

Lemma of_Z_nonempty (z : Z) : of_Z z <> EmptyString.
Proof.
  unfold of_Z. destruct (Z.to_int z) as [d|d]; simpl.
  - destruct d; simpl; discriminate.
  - discriminate.
Qed.

Lemma mem_avoids_numeric (n s : string) :
  numeric s = true -> avoids n "-0123456789" = true -> avoids n s = true.
Proof.
  intros Hs Hn. induction s as [|c s IH]; simpl; [reflexivity|].
  simpl in Hs. apply andb_true_iff in Hs; destruct Hs as [Hc Hs].
  rewrite (IH Hs), andb_true_r.
  unfold is_num_char in Hc. cbn [mem] in Hc. cbn [avoids] in Hn.
  repeat (apply orb_true_iff in Hc; destruct Hc as [Hc|Hc]);
    try (apply Ascii.eqb_eq in Hc; subst c;
         repeat (apply andb_true_iff in Hn; destruct Hn as [? Hn]);
         assumption).
  discriminate.
Qed.

(** A prefix test cannot run into a stretch of bytes foreign to the
    needle. *)
Lemma prefix_before (n x m b : string) :
  m <> EmptyString -> avoids n m = true -> n <> EmptyString ->
  prefix n (x ++ m ++ b) = prefix n x.
Proof.
  revert x. induction n as [|n0 n IH]; intros x Hm Hav Hn; [congruence|].
  destruct x as [|x0 x]; simpl.
  - destruct m as [|m0 m]; [congruence|]. simpl in *.
    apply andb_true_iff in Hav; destruct Hav as [Hm0 _].
    apply negb_true_iff in Hm0. apply orb_false_iff in Hm0.
    destruct Hm0 as [Hm0 _]. now rewrite Hm0.
  - destruct (Ascii.eqb n0 x0); simpl; [|reflexivity].
    destruct n as [|n1 n]; [reflexivity|].
    apply IH; [assumption| |discriminate].
    clear - Hav. induction m as [|c m IHm]; simpl in *; [reflexivity|].
    apply andb_true_iff in Hav; destruct Hav as [Hc Hav].
    rewrite (IHm Hav), andb_true_r.
    apply negb_true_iff in Hc. apply orb_false_iff in Hc.
    destruct Hc as [_ Hc]. simpl in Hc. now rewrite Hc.
Qed.

(** Nor can a match lie across such a stretch. *)
Lemma contains_around (n a m b : string) :
  m <> EmptyString -> avoids n m = true -> n <> EmptyString ->
  contains n (a ++ m ++ b) = contains n a || contains n b.
Proof.
  intros Hm Hav Hn. induction a as [|a0 a IH].
  - simpl. destruct n as [|n0 n]; [congruence|]. simpl.
    clear Hm. induction m as [|c m IHm]; [reflexivity|].
    simpl in Hav. apply andb_true_iff in Hav; destruct Hav as [Hc Hav].
    apply negb_true_iff in Hc. simpl in Hc. apply orb_false_iff in Hc.
    destruct Hc as [Hc _].
    change ((String c m ++ b)%string) with (String c (m ++ b)).
    cbn [contains prefix]. rewrite Hc. simpl. now apply IHm.
  - change ((String a0 a ++ m ++ b)%string) with (String a0 (a ++ m ++ b)).
    cbn [contains]. rewrite IH.
    change (String a0 (a ++ m ++ b)) with ((String a0 a ++ m ++ b)%string).
    rewrite (prefix_before n (String a0 a) m b Hm Hav Hn).
    now rewrite orb_assoc.
Qed.

Lemma prefix_app_l (n a b : string) :
  prefix n a = true -> prefix n (a ++ b) = true.
Proof.
  revert a. induction n as [|n0 n IH]; intros a H; [reflexivity|].
  destruct a as [|a0 a]; simpl in *; [discriminate|].
  apply andb_true_iff in H; destruct H as [H1 H2].
  now rewrite H1, (IH _ H2).
Qed.

Lemma contains_app_l (n a b : string) :
  contains n a = true -> contains n (a ++ b) = true.
Proof.
  induction a as [|a0 a IH]; intros H.
  - simpl in H. rewrite orb_false_r in H.
    destruct n; [|discriminate]. destruct b; reflexivity.
  - simpl in H. apply orb_true_iff in H. destruct H as [H|H].
    + change (contains n (String a0 (a ++ b)) = true). cbn [contains].
      change (String a0 (a ++ b)) with ((String a0 a ++ b)%string).
      now rewrite (prefix_app_l _ _ b H).
    + change (contains n (String a0 (a ++ b)) = true). cbn [contains].
      rewrite (IH H). apply orb_true_r.
Qed.

End StrFacts.

(* ================================================================== *)
(** ** Facts about patterns *)

Module LikeFacts.
Import Str Like.

(** [%] either matches nothing or swallows one byte and stays. *)
Lemma like_percent (pat text : string) :
  like (String percent pat) text
  = like pat text
    || match text with
       | EmptyString => false
       | String _ t' => like (String percent pat) t'
       end.
Proof. destruct text; reflexivity. Qed.

Lemma like_percent_only (text : string) : like "%" text = true.
Proof.
  induction text as [|c t IH].
  - reflexivity.
  - change "%" with (String percent EmptyString) in *.
    rewrite like_percent, IH. apply orb_true_r.
Qed.

Lemma like_plain_head (c : ascii) (pat text : string) :
  is_meta c = false ->
  like (String c pat) text
  = match text with
    | EmptyString => false
    | String x t' => Ascii.eqb c x && like pat t'
    end.
Proof.
  unfold is_meta. intros H.
  apply orb_false_iff in H; destruct H as [H Hb].
  apply orb_false_iff in H; destruct H as [Hp Hu].
  cbn [like]. now rewrite Hp, Hu, Hb.
Qed.

(** A fragment without special bytes, followed by [%], asks for a prefix. *)
Lemma like_plain_then_percent (frag text : string) :
  has_meta frag = false -> like (frag ++ "%") text = prefix frag text.
Proof.
  revert text. induction frag as [|c f IH]; intros text H.
  - apply like_percent_only.
  - simpl in H. apply orb_false_iff in H; destruct H as [Hc Hf].
    change ((String c f ++ "%")%string) with (String c (f ++ "%")).
    rewrite (like_plain_head _ _ _ Hc).
    destruct text as [|x t]; [reflexivity|].
    simpl. now rewrite (IH _ Hf).
Qed.

(** Between two [%], it asks for a substring. *)
Lemma like_contains (frag text : string) :
  has_meta frag = false ->
  like ("%" ++ frag ++ "%") text = contains frag text.
Proof.
  intros H. change (("%" ++ frag ++ "%")%string)
    with (String percent (frag ++ "%")).
  induction text as [|c t IH].
  - rewrite like_percent, (like_plain_then_percent _ _ H).
    simpl. reflexivity.
  - rewrite like_percent, (like_plain_then_percent _ _ H), IH.
    reflexivity.
Qed.

Lemma is_meta_lower (c : ascii) : is_meta (lower_ascii c) = is_meta c.
Proof. destruct c as [[] [] [] [] [] [] [] []]; reflexivity. Qed.

Lemma has_meta_lower (s : string) : has_meta (lower s) = has_meta s.
Proof.
  induction s as [|c s IH]; simpl; [reflexivity|].
  now rewrite is_meta_lower, IH.
Qed.

(** The pattern of the search never ends in a lone escape. *)
Lemma dangling_escape_then_percent (n : nat) (frag : string) :
  (String.length frag <= n)%nat -> dangling_escape (frag ++ "%") = false.
Proof.
  revert frag. induction n as [|n IH]; intros frag Hlen.
  - destruct frag; [reflexivity | simpl in Hlen; lia].
  - destruct frag as [|c f]; [reflexivity|].
    simpl in Hlen.
    change ((String c f ++ "%")%string) with (String c (f ++ "%")).
    cbn [dangling_escape].
    destruct (Ascii.eqb c backslash).
    + destruct f as [|d f']; [reflexivity|].
      change ((String d f' ++ "%")%string) with (String d (f' ++ "%")).
      apply IH. simpl in Hlen. lia.
    + apply IH. lia.
Qed.

End LikeFacts.

(* ================================================================== *)
(** ** Facts about the [except] clauses *)

Section Except.
Import Str StrFacts.

Lemma pattern_never_dangles (name_part : string) :
  Like.dangling_escape (search_pattern name_part) = false.
Proof.
  unfold search_pattern.
  change (("%" ++ name_part ++ "%")%string)
    with (String Like.percent (name_part ++ "%")).
  cbn [Like.dangling_escape].
  change (Ascii.eqb Like.percent Like.backslash) with false. cbn iota.
  now apply (LikeFacts.dangling_escape_then_percent (String.length name_part)).
Qed.

(** Both employee operations carry the same clauses. *)
Lemma update_employee_except_eq (x : exn) :
  update_employee_except x = add_employee_except x.
Proof. reflexivity. Qed.

(** The server's uniqueness error reads as a duplicate email, whatever the
    constraint and the key. *)
Lemma except_unique_violation (constraint column value : string) :
  add_employee_except (Psycopg2 (unique_violation constraint column value))
  = DuplicateEmail.
Proof.
  unfold add_employee_except, unique_violation.
  cbn [is_IntegrityError err_class err_str].
  rewrite lower_app.
  match goal with
  | |- context [contains "unique constraint" (?A ++ ?B)] =>
      rewrite (contains_app_l "unique constraint" A B eq_refl)
  end.
  reflexivity.
Qed.

(** Its foreign-key error on [employees.department_id] reads as an invalid
    department, whatever the key. *)
Lemma except_foreign_key_violation (d : Z) :
  add_employee_except
    (Psycopg2 (foreign_key_violation "employees" "employees_department_id_fkey"
                 "department_id" d "departments"))
  = InvalidDepartment.
Proof.
  unfold add_employee_except, foreign_key_violation.
  cbn [is_IntegrityError err_class err_str].
  match goal with
  | |- context [lower (?A ++ of_Z d ++ ?B)] =>
      rewrite (lower_app A), (lower_app (of_Z d) B),
        (lower_numeric _ (numeric_of_Z d));
      rewrite !(contains_around _ (lower A) (of_Z d) (lower B))
        by (first [ apply of_Z_nonempty
                  | apply mem_avoids_numeric;
                    [apply numeric_of_Z | reflexivity]
                  | discriminate ])
  end.
  vm_compute. reflexivity.
Qed.

Lemma add_department_except_unique (constraint column value : string) :
  add_department_except (Psycopg2 (unique_violation constraint column value))
  = DuplicateName.
Proof. reflexivity. Qed.

End Except.

(* ================================================================== *)
(** ** What each operation comes to *)

Section Equations.

Lemma eta_database (db : database) :
  mkDatabase (departments db) (employees db) (departments_id_seq db)
    (employees_id_seq db) = db.
Proof. now destruct db. Qed.

Lemma existsb_filter {A : Type} (f : A -> bool) (l : list A) :
  existsb f l = match filter f l with [] => false | _ :: _ => true end.
Proof.
  induction l as [|a l IH]; simpl; [reflexivity|].
  destruct (f a); simpl; [reflexivity | exact IH].
Qed.

Lemma filter_negb_all {A : Type} (f : A -> bool) (l : list A) :
  existsb f l = false -> filter (fun a => negb (f a)) l = l.
Proof.
  induction l as [|a l IH]; simpl; intros H; [reflexivity|].
  apply orb_false_iff in H; destruct H as [Ha Hl].
  rewrite Ha; simpl. now rewrite (IH Hl).
Qed.

Lemma existsb_key {A : Type} (key : A -> Z) (k : Z) (l : list A) :
  existsb (fun a => key a =? k) l = true <-> In k (map key l).
Proof.
  rewrite existsb_exists, in_map_iff. split.
  - intros (a & Ha & Hk). apply Z.eqb_eq in Hk. now exists a.
  - intros (a & Hk & Ha). exists a. split; [assumption|]. now apply Z.eqb_eq.
Qed.

Lemma existsb_text {A : Type} (key : A -> string) (k : string) (l : list A) :
  existsb (fun a => String.eqb (key a) k) l = true <-> In k (map key l).
Proof.
  rewrite existsb_exists, in_map_iff. split.
  - intros (a & Ha & Hk). apply String.eqb_eq in Hk. now exists a.
  - intros (a & Hk & Ha). exists a. split; [assumption|].
    now apply String.eqb_eq.
Qed.

Lemma existsb_key_below {A : Type} (key : A -> Z) (k : Z) (l : list A) :
  (forall i, In i (map key l) -> i < k) ->
  existsb (fun a => key a =? k) l = false.
Proof.
  intros H. destruct (existsb _ l) eqn:E; [|reflexivity].
  apply existsb_key in E. apply H in E. lia.
Qed.

Lemma existsb_references (d : Z) (l : list employee) :
  existsb (references d) l = true
  <-> exists e, In e l /\ e_department_id e = Some d.
Proof.
  rewrite existsb_exists. unfold references.
  split; intros (e & He & H); exists e; (split; [assumption|]).
  - destruct (e_department_id e) as [d'|]; [|discriminate].
    apply Z.eqb_eq in H. now subst.
  - rewrite H. apply Z.eqb_refl.
Qed.

Lemma clear_department_none (d : Z) (l : list employee) :
  existsb (references d) l = false -> map (Sql.clear_department d) l = l.
Proof.
  induction l as [|e l IH]; simpl; intros H; [reflexivity|].
  apply orb_false_iff in H; destruct H as [He Hl].
  unfold Sql.clear_department at 1. now rewrite He, (IH Hl).
Qed.

(** [add_department]: the sequence moves on in either case. *)
Lemma add_department_eq (name : string) (db : database) :
  add_department name db =
    let id := departments_id_seq db in
    let db1 := mkDatabase (departments db) (employees db) (id + 1)
                 (employees_id_seq db) in
    if existsb (fun d => d_id d =? id) (departments db)
       || existsb (fun d => String.eqb (d_name d) name) (departments db)
    then (db1, Raises DuplicateName)
    else (set_departments (departments db ++ [mkDepartment id name]) db1,
          Returns tt).
Proof.
  unfold add_department, try_except, with_connection, bind, execute, commit,
    Sql.insert_department, rollback, raise.
  cbn.
  destruct (existsb (fun d => d_id d =? departments_id_seq db) (departments db));
    [reflexivity|].
  destruct (existsb (fun d => String.eqb (d_name d) name) (departments db));
    reflexivity.
Qed.

Lemma delete_department_eq (dept_id : Z) (db : database) :
  delete_department dept_id db =
    if existsb (references dept_id) (employees db)
    then (db, Raises HasDependents)
    else (set_departments
            (filter (fun d => negb (d_id d =? dept_id)) (departments db)) db,
          Returns (existsb (fun d => d_id d =? dept_id) (departments db))).
Proof.
  unfold delete_department, try_except, with_connection, bind, execute,
    Sql.select_employee_of_department, fetchone, rollback, raise.
  cbn.
  destruct (existsb (references dept_id) (employees db)) eqn:Eref.
  - rewrite existsb_filter in Eref.
    destruct (filter (references dept_id) (employees db)); [discriminate|].
    cbn. now rewrite eta_database.
  - pose proof Eref as Eref'. rewrite existsb_filter in Eref'.
    destruct (filter (references dept_id) (employees db)); [|discriminate].
    cbn. unfold Sql.delete_department.
    destruct (existsb (fun d => d_id d =? dept_id) (departments db)) eqn:Ed.
    + rewrite existsb_filter in Ed.
      destruct (filter (fun d => d_id d =? dept_id) (departments db));
        [discriminate|].
      cbn. unfold set_departments. now rewrite (clear_department_none _ _ Eref).
    + pose proof Ed as Ed'. rewrite existsb_filter in Ed'.
      destruct (filter (fun d => d_id d =? dept_id) (departments db));
        [|discriminate].
      cbn. unfold set_departments.
      rewrite (filter_negb_all _ _ Ed). now rewrite eta_database.
Qed.

Lemma add_employee_eq (name email : string) (dept_id : option Z)
    (salary : option decimal) (db : database) :
  add_employee name email dept_id salary db =
    let id := employees_id_seq db in
    let db1 := mkDatabase (departments db) (employees db)
                 (departments_id_seq db) (id + 1) in
    if existsb (fun e => e_id e =? id) (employees db)
       || existsb (fun e => String.eqb (e_email e) email) (employees db)
    then (db1, Raises DuplicateEmail)
    else if match dept_id with
            | Some d => existsb (fun r => d_id r =? d) (departments db)
            | None => true
            end
    then (set_employees
            (employees db ++ [mkEmployee id name email dept_id salary]) db1,
          Returns tt)
    else (db1, Raises InvalidDepartment).
Proof.
  unfold add_employee, try_except, with_connection, bind, execute, commit,
    Sql.insert_employee, rollback, raise.
  cbn -[add_employee_except unique_violation foreign_key_violation Z.add].
  destruct (existsb (fun e => e_id e =? employees_id_seq db) (employees db)).
  { cbn -[add_employee_except unique_violation Z.add].
    now rewrite except_unique_violation. }
  destruct (existsb (fun e => String.eqb (e_email e) email) (employees db)).
  { cbn -[add_employee_except unique_violation Z.add].
    now rewrite except_unique_violation. }
  cbn [orb].
  destruct dept_id as [d|]; [|reflexivity].
  destruct (existsb (fun r => d_id r =? d) (departments db)); [reflexivity|].
  cbn -[add_employee_except foreign_key_violation Z.add].
  now rewrite except_foreign_key_violation.
Qed.

Lemma assign_all_update_fields (name email : option string)
    (dept_id : option Z) (salary : option decimal) (e : employee) :
  Sql.assign_all (update_fields name email dept_id salary) e
  = updated_row name email dept_id salary e.
Proof.
  destruct name, email, dept_id, salary; destruct e; reflexivity.
Qed.

Lemma update_fields_nil (name email : option string) (dept_id : option Z)
    (salary : option decimal) :
  update_fields name email dept_id salary = []
  <-> name = None /\ email = None /\ dept_id = None /\ salary = None.
Proof.
  split.
  - destruct name, email, dept_id, salary; cbn; intros H;
      try discriminate H; auto.
  - intros (-> & -> & -> & ->). reflexivity.
Qed.

Lemma assign_all_id (fields : list Sql.assignment) (e : employee) :
  e_id (Sql.assign_all fields e) = e_id e.
Proof.
  unfold Sql.assign_all. revert e.
  induction fields as [|a fields IH]; intros e; [reflexivity|].
  simpl. rewrite IH. now destruct a.
Qed.

Lemma filter_hit_map (fields : list Sql.assignment) (emp_id : Z)
    (l : list employee) :
  filter (fun e => e_id e =? emp_id)
    (map (fun e => if e_id e =? emp_id then Sql.assign_all fields e else e) l)
  = map (Sql.assign_all fields) (filter (fun e => e_id e =? emp_id) l).
Proof.
  induction l as [|e l IH]; simpl; [reflexivity|].
  destruct (e_id e =? emp_id) eqn:E.
  - rewrite assign_all_id, E. simpl. now rewrite IH.
  - rewrite E. exact IH.
Qed.

Lemma length_pos_existsb {A : Type} (f : A -> bool) (l : list A) :
  (0 <? List.length (filter f l))%nat = existsb f l.
Proof.
  rewrite existsb_filter. now destruct (filter f l).
Qed.

(** [update_employee]: nothing to set is success without a statement; a
    statement that fails leaves the store as it was. *)
Lemma update_employee_eq (emp_id : Z) (name email : option string)
    (dept_id : option Z) (salary : option decimal) (db : database) :
  update_employee emp_id name email dept_id salary db =
    match update_fields name email dept_id salary with
    | [] => (db, Returns true)
    | a :: fields =>
        match Sql.update_employees (a :: fields) emp_id db with
        | (db', Returns n) => (db', Returns (0 <? n)%nat)
        | (_, Raises x) => (db, Raises (update_employee_except x))
        end
    end.
Proof.
  unfold update_employee, try_except, with_connection.
  destruct (update_fields name email dept_id salary) as [|a fields];
    [reflexivity|].
  unfold bind, execute, commit, ret, rollback, raise,
    Sql.update_employees.
  cbn -[update_employee_except unique_violation foreign_key_violation
        Sql.assign_all Nat.ltb existsb].
  destruct (find _ _).
  { cbn -[update_employee_except unique_violation]. now rewrite eta_database. }
  destruct (find _ _).
  { cbn -[update_employee_except foreign_key_violation].
    now rewrite eta_database. }
  cbn -[Sql.assign_all Nat.ltb existsb].
  destruct (0 <? _)%nat; reflexivity.
Qed.

(** The statement behind it, when it goes through. *)
Lemma update_employees_returns (fields : list Sql.assignment) (emp_id : Z)
    (db db' : database) (n : nat) :
  Sql.update_employees fields emp_id db = (db', Returns n) ->
  db' = set_employees
          (map (fun e => if e_id e =? emp_id
                         then Sql.assign_all fields e else e) (employees db)) db
  /\ (0 <? n)%nat = existsb (fun e => e_id e =? emp_id) (employees db).
Proof.
  unfold Sql.update_employees.
  destruct (find _ _); [discriminate|].
  destruct (find _ _); [discriminate|].
  intros H. injection H as <- <-. split; [reflexivity|].
  rewrite filter_hit_map, length_map. apply length_pos_existsb.
Qed.



Lemma get_employee_by_id_eq (emp_id : Z) (db : database) :
  get_employee_by_id emp_id db =
    (db, Returns (hd_error (map Sql.select_record
                    (filter (fun e => e_id e =? emp_id) (employees db))))).
Proof. reflexivity. Qed.

Lemma get_all_employees_eq (db : database) :
  get_all_employees db =
    (db, Returns (map Sql.select_listing
                    (Sql.order_by (fun r => e_id (fst r))
                       (flat_map (Sql.left_join (departments db))
                          (employees db))))).
Proof. reflexivity. Qed.

Lemma search_employees_by_name_eq (name_part : string) (db : database) :
  search_employees_by_name name_part db =
    (db, Returns (map Sql.select_listing
                    (Sql.order_by (fun r => e_id (fst r))
                       (filter (fun r => Like.ilike (e_name (fst r))
                                           (search_pattern name_part))
                          (flat_map (Sql.left_join (departments db))
                             (employees db)))))).
Proof. reflexivity. Qed.

End Equations.

(* ================================================================== *)
(** ** Facts about [ORDER BY] *)

Section Ordering.
Context {R : Type} (key : R -> Z).

Lemma insert_by_In (r x : R) (rows : list R) :
  In x (Sql.insert_by key r rows) <-> x = r \/ In x rows.
Proof.
  induction rows as [|r' rows IH]; simpl.
  - intuition auto.
  - destruct (key r <=? key r'); simpl; rewrite ?IH; intuition auto.
Qed.

Lemma insert_by_sorted (r : R) (rows : list R) :
  StronglySorted (fun a b => key a <= key b) rows -> StronglySorted (fun a b => key a <= key b) (Sql.insert_by key r rows).
Proof.
  induction 1 as [|r' rows Hs IH Hall]; simpl.
  - constructor; constructor.
  - destruct (key r <=? key r') eqn:E.
    + apply Z.leb_le in E. constructor.
      * now constructor.
      * constructor; [exact E|].
        eapply Forall_impl; [|exact Hall]. cbn beta. intros; lia.
    + apply Z.leb_gt in E. constructor; [exact IH|].
      apply Forall_forall. intros x Hx. apply insert_by_In in Hx.
      destruct Hx as [->|Hx].
      * cbn beta; lia.
      * rewrite Forall_forall in Hall. now apply Hall.
Qed.

Lemma order_by_sorted (rows : list R) :
  StronglySorted (fun a b => key a <= key b) (Sql.order_by key rows).
Proof.
  induction rows as [|r rows IH]; simpl.
  - constructor.
  - now apply insert_by_sorted.
Qed.

Lemma order_by_In (x : R) (rows : list R) :
  In x (Sql.order_by key rows) <-> In x rows.
Proof.
  induction rows as [|r rows IH]; simpl; [reflexivity|].
  rewrite insert_by_In, IH. intuition auto.
Qed.

Lemma insert_by_front (r : R) (rows : list R) :
  (forall x, In x rows -> key r <= key x) ->
  Sql.insert_by key r rows = r :: rows.
Proof.
  destruct rows as [|r' rows]; simpl; [reflexivity|].
  intros H. assert (E : key r <= key r') by (apply H; now left).
  apply Z.leb_le in E. now rewrite E.
Qed.

(** A [WHERE] clause may be applied before or after the sort. *)
Lemma filter_insert_by (p : R -> bool) (r : R) (rows : list R) :
  StronglySorted (fun a b => key a <= key b) rows ->
  filter p (Sql.insert_by key r rows)
  = if p r then Sql.insert_by key r (filter p rows) else filter p rows.
Proof.
  induction 1 as [|r' rows Hs IH Hall]; simpl.
  - now destruct (p r).
  - destruct (key r <=? key r') eqn:E.
    + simpl. destruct (p r) eqn:Pr; [|reflexivity].
      apply Z.leb_le in E. rewrite insert_by_front; [reflexivity|].
      intros x Hx.
      assert (Hx' : In x (r' :: rows)).
      { destruct (p r'); [|right; now apply filter_In in Hx].
        destruct Hx as [<-|Hx]; [now left|right; now apply filter_In in Hx]. }
      destruct Hx' as [<-|Hx']; [exact E|].
      rewrite Forall_forall in Hall. specialize (Hall _ Hx').
      cbn beta in Hall. lia.
    + simpl. rewrite IH. destruct (p r'), (p r); simpl; rewrite ?E; reflexivity.
Qed.

Lemma filter_order_by (p : R -> bool) (rows : list R) :
  filter p (Sql.order_by key rows) = Sql.order_by key (filter p rows).
Proof.
  induction rows as [|r rows IH]; simpl; [reflexivity|].
  rewrite filter_insert_by by apply order_by_sorted.
  rewrite IH. now destruct (p r).
Qed.

End Ordering.

(* ================================================================== *)
(** ** Invariant: every operation keeps the schema's constraints *)

Section Invariant.

Lemma NoDup_snoc {A : Type} (x : A) (l : list A) :
  NoDup l -> ~ In x l -> NoDup (l ++ [x]).
Proof.
  induction 1 as [|a l Ha Hl IH]; simpl; intros Hx.
  - constructor; [tauto | constructor].
  - constructor.
    + rewrite in_app_iff. simpl. intros [H|[H|[]]]; [tauto|].
      apply Hx. now left.
    + apply IH. tauto.
Qed.

Lemma NoDup_middle {A : Type} (x : A) (l1 l2 : list A) :
  NoDup (l1 ++ l2) -> ~ In x (l1 ++ l2) -> NoDup (l1 ++ x :: l2).
Proof.
  induction l1 as [|a l1 IH]; simpl; intros Hnd Hx.
  - now constructor.
  - inversion Hnd as [|? ? Ha Hl]; subst. constructor.
    + rewrite in_app_iff in *. simpl. intros [H|[H|H]]; subst; tauto.
    + apply IH; tauto.
Qed.

Lemma NoDup_map_filter {A B : Type} (key : A -> B) (f : A -> bool)
    (l : list A) :
  NoDup (map key l) -> NoDup (map key (filter f l)).
Proof.
  induction l as [|a l IH]; simpl; intros H; [constructor|].
  inversion H as [|? ? Ha Hl]; subst.
  destruct (f a); simpl; [|now apply IH].
  constructor; [|now apply IH].
  intros Hin. apply Ha. apply in_map_iff in Hin.
  destruct Hin as (x & Hk & Hx). apply filter_In in Hx.
  apply in_map_iff. exists x. tauto.
Qed.

Lemma In_map_filter {A B : Type} (key : A -> B) (f : A -> bool)
    (l : list A) (k : B) :
  In k (map key (filter f l)) -> In k (map key l).
Proof.
  rewrite !in_map_iff. intros (x & Hk & Hx). apply filter_In in Hx.
  exists x. tauto.
Qed.

Lemma empty_db_wf : wf empty_db.
Proof.
  constructor; simpl; try constructor; intros; contradiction.
Qed.

Lemma company_wf : wf company.
Proof.
  constructor; simpl.
  - repeat constructor; simpl; intuition discriminate.
  - repeat constructor; simpl; intuition discriminate.
  - repeat constructor; simpl; intuition discriminate.
  - repeat constructor; simpl; intuition discriminate.
  - intros e d [<-|[<-|[<-|[]]]]; simpl; intros H; inversion H; auto.
  - intros i [<-|[<-|[]]]; reflexivity.
  - intros i [<-|[<-|[<-|[]]]]; reflexivity.
Qed.

Lemma add_department_wf (name : string) (db : database) :
  wf db -> wf (fst (add_department name db)).
Proof.
  intros [H1 H2 H3 H4 H5 H6 H7]. rewrite add_department_eq. cbn zeta.
  destruct (existsb _ _ || existsb _ _) eqn:E.
  - constructor; simpl; auto.
    intros i Hi. specialize (H6 i Hi). lia.
  - apply orb_false_iff in E. destruct E as [Eid Ename].
    unfold department_ids, department_names in *.
    constructor; unfold department_ids, department_names; simpl; auto.
    + rewrite map_app. apply NoDup_snoc; [assumption|].
      simpl. intros Hin. apply H6 in Hin. lia.
    + rewrite map_app. apply NoDup_snoc; [assumption|].
      simpl. intros Hin. apply (existsb_text d_name) in Hin. congruence.
    + intros e d He Hd. rewrite map_app, in_app_iff. left. eauto.
    + intros i. rewrite map_app, in_app_iff. simpl.
      intros [Hi|[<-|[]]]; [apply H6 in Hi|]; lia.
Qed.

Lemma delete_department_wf (dept_id : Z) (db : database) :
  wf db -> wf (fst (delete_department dept_id db)).
Proof.
  intros [H1 H2 H3 H4 H5 H6 H7]. rewrite delete_department_eq.
  destruct (existsb (references dept_id) (employees db)) eqn:E.
  - now constructor.
  - unfold department_ids, department_names in *.
    constructor; unfold department_ids, department_names; simpl; auto.
    + now apply NoDup_map_filter.
    + now apply NoDup_map_filter.
    + intros e d He Hd. specialize (H5 e d He Hd).
      apply in_map_iff in H5. destruct H5 as (r & Hr & Hin).
      apply in_map_iff. exists r. split; [assumption|].
      apply filter_In. split; [assumption|].
      apply negb_true_iff. apply Z.eqb_neq. intros Heq.
      assert (X : existsb (references dept_id) (employees db) = true)
        by (apply existsb_references; exists e; split; congruence).
      congruence.
    + intros i Hi. apply H6. eapply In_map_filter; eauto.
Qed.

Lemma add_employee_wf (name email : string) (dept_id : option Z)
    (salary : option decimal) (db : database) :
  wf db -> wf (fst (add_employee name email dept_id salary db)).
Proof.
  intros [H1 H2 H3 H4 H5 H6 H7]. rewrite add_employee_eq. cbn zeta.
  assert (Hbump : wf (mkDatabase (departments db) (employees db)
                        (departments_id_seq db) (employees_id_seq db + 1))).
  { constructor; simpl; auto. intros i Hi. specialize (H7 i Hi). lia. }
  destruct (existsb _ _ || existsb _ _) eqn:E; [exact Hbump|].
  match goal with |- context [if ?c then _ else _] => destruct c eqn:Ed end;
    [|exact Hbump].
  apply orb_false_iff in E. destruct E as [Eid Eemail].
  unfold employee_ids, employee_emails in *.
  constructor; unfold employee_ids, employee_emails; simpl; auto.
  - rewrite map_app. apply NoDup_snoc; [assumption|].
    simpl. intros Hin. apply H7 in Hin. lia.
  - rewrite map_app. apply NoDup_snoc; [assumption|].
    simpl. intros Hin. apply (existsb_text e_email) in Hin. congruence.
  - intros e d He Hd. apply in_app_iff in He. destruct He as [He|[<-|[]]].
    + eauto.
    + simpl in Hd. subst dept_id. now apply existsb_key in Ed.
  - intros i. rewrite map_app, in_app_iff. simpl.
    intros [Hi|[<-|[]]]; [apply H7 in Hi|]; lia.
Qed.

Lemma delete_employee_eq (emp_id : Z) (db : database) :
  delete_employee emp_id db =
    (set_employees
       (filter (fun e => negb (e_id e =? emp_id)) (employees db)) db,
     Returns (existsb (fun e => e_id e =? emp_id) (employees db))).
Proof.
  unfold delete_employee, try_except, with_connection, bind, execute,
    Sql.delete_employee.
  cbn -[Nat.ltb]. rewrite length_pos_existsb.
  destruct (existsb _ _); reflexivity.
Qed.

Lemma delete_employee_wf (emp_id : Z) (db : database) :
  wf db -> wf (fst (delete_employee emp_id db)).
Proof.
  intros [H1 H2 H3 H4 H5 H6 H7]. rewrite delete_employee_eq.
  unfold employee_ids, employee_emails in *.
  constructor; unfold employee_ids, employee_emails; simpl; auto.
  - now apply NoDup_map_filter.
  - now apply NoDup_map_filter.
  - intros e d He Hd. apply filter_In in He. destruct He as [He _]. eauto.
  - intros i Hi. apply H7. eapply In_map_filter; eauto.
Qed.

Lemma assign_all_email (fields : list Sql.assignment) (e : employee) :
  existsb Sql.sets_email fields = false ->
  e_email (Sql.assign_all fields e) = e_email e.
Proof.
  unfold Sql.assign_all. revert e.
  induction fields as [|a fields IH]; intros e H; [reflexivity|].
  simpl in *. apply orb_false_iff in H; destruct H as [Ha Hf].
  rewrite (IH _ Hf). destruct a; try reflexivity; discriminate.
Qed.

Lemma assign_all_department (fields : list Sql.assignment) (e : employee) :
  existsb Sql.sets_department fields = false ->
  e_department_id (Sql.assign_all fields e) = e_department_id e.
Proof.
  unfold Sql.assign_all. revert e.
  induction fields as [|a fields IH]; intros e H; [reflexivity|].
  simpl in *. apply orb_false_iff in H; destruct H as [Ha Hf].
  rewrite (IH _ Hf). destruct a; try reflexivity; discriminate.
Qed.

Lemma map_hit_none (f : employee -> employee) (emp_id : Z)
    (l : list employee) :
  (forall x, In x l -> e_id x <> emp_id) ->
  map (fun e => if e_id e =? emp_id then f e else e) l = l.
Proof.
  induction l as [|a l IH]; simpl; intros H; [reflexivity|].
  rewrite IH by auto.
  assert (E : e_id a <> emp_id) by auto.
  apply Z.eqb_neq in E. now rewrite E.
Qed.

Lemma filter_none {A : Type} (f : A -> bool) (l : list A) :
  (forall x, In x l -> f x = false) -> filter f l = [].
Proof.
  induction l as [|a l IH]; simpl; intros H; [reflexivity|].
  rewrite (H a) by auto. apply IH; auto.
Qed.

Lemma split_at_id (e : employee) (l : list employee) :
  NoDup (map e_id l) -> In e l ->
  exists l1 l2, l = (l1 ++ e :: l2)%list
                /\ forall x, In x (l1 ++ l2)%list -> e_id x <> e_id e.
Proof.
  intros Hnd Hin. apply in_split in Hin. destruct Hin as (l1 & l2 & ->).
  exists l1, l2. split; [reflexivity|].
  rewrite map_app in Hnd. simpl in Hnd. apply NoDup_remove_2 in Hnd.
  intros x Hx Heq. apply Hnd. rewrite <- map_app, <- Heq.
  now apply in_map.
Qed.

Lemma update_employees_wf (fields : list Sql.assignment) (emp_id : Z)
    (db db' : database) (n : nat) :
  wf db -> Sql.update_employees fields emp_id db = (db', Returns n) -> wf db'.
Proof.
  intros Hwf. pose proof Hwf as [H1 H2 H3 H4 H5 H6 H7].
  unfold Sql.update_employees.
  match goal with
  | |- context [match find ?f ?l with _ => _ end] =>
      destruct (find f l) eqn:Ft; [discriminate|]
  end.
  match goal with
  | |- context [match find ?f ?l with _ => _ end] =>
      destruct (find f l) eqn:Fd; [discriminate|]
  end.
  intros H. injection H as <- _.
  destruct (existsb (fun e => e_id e =? emp_id) (employees db)) eqn:Ex.
  2:{ rewrite map_hit_none.
      - unfold set_employees. now rewrite eta_database.
      - intros x Hx Heq.
        assert (existsb (fun e => e_id e =? emp_id) (employees db) = true)
          by (apply existsb_exists; exists x; split; [assumption|];
              now apply Z.eqb_eq).
        congruence. }
  apply existsb_exists in Ex. destruct Ex as (e & He & Hid).
  apply Z.eqb_eq in Hid.
  unfold employee_ids, employee_emails in *.
  destruct (split_at_id e _ H3 He) as (l1 & l2 & Hl & Hother).
  rewrite Hid in Hother.
  assert (Hrows :
    map (fun e0 => if e_id e0 =? emp_id
                   then Sql.assign_all fields e0 else e0) (employees db)
    = (l1 ++ Sql.assign_all fields e :: l2)%list).
  { rewrite Hl, map_app. simpl.
    rewrite !map_hit_none
      by (intros x Hx; apply Hother; rewrite in_app_iff; auto).
    apply Z.eqb_eq in Hid. now rewrite Hid. }
  rewrite Hrows in Ft, Fd |- *.
  set (u := Sql.assign_all fields e) in *.
  assert (Hu : e_id u = emp_id) by (unfold u; now rewrite assign_all_id).
  assert (Hin : In u (filter (fun e0 => e_id e0 =? emp_id)
                        (l1 ++ u :: l2)%list)).
  { apply filter_In. split; [|now apply Z.eqb_eq].
    rewrite in_app_iff. right. now left. }
  pose proof (find_none _ _ Ft _ Hin) as Htaken.
  pose proof (find_none _ _ Fd _ Hin) as Hdangling.
  cbv beta in Htaken, Hdangling.
  rewrite Hl in H3, H4, H5, H7.
  constructor; unfold employee_ids, employee_emails, set_employees; simpl;
    auto.
  - rewrite map_app in *. simpl in *. now rewrite Hu, <- Hid.
  - rewrite map_app in *. simpl in *.
    apply NoDup_middle; [eapply NoDup_remove_1; eauto|].
    apply andb_false_iff in Htaken. destruct Htaken as [Hs|Hc].
    + unfold u. rewrite (assign_all_email _ _ Hs).
      eapply NoDup_remove_2; eauto.
    + apply Nat.ltb_ge in Hc.
      rewrite filter_app in Hc. simpl in Hc. rewrite String.eqb_refl in Hc.
      rewrite length_app in Hc. simpl in Hc.
      rewrite <- map_app. intros Hm. apply in_map_iff in Hm.
      destruct Hm as (x & Hx & Hxin).
      apply in_app_iff in Hxin.
      assert (Hf : forall l, In x l ->
                (0 < List.length
                   (filter (fun r => String.eqb (e_email r) (e_email u)) l))%nat).
      { intros l Hxl.
        assert (X : In x (filter (fun r => String.eqb (e_email r) (e_email u)) l))
          by (apply filter_In; split; [assumption|now apply String.eqb_eq]).
        destruct (filter _ l); [contradiction|simpl; lia]. }
      destruct Hxin as [Hxin|Hxin]; apply Hf in Hxin; lia.
  - intros x d Hx Hd. apply in_app_iff in Hx.
    destruct Hx as [Hx|[<-|Hx]].
    + apply (H5 x d); [rewrite in_app_iff; auto | assumption].
    + apply andb_false_iff in Hdangling. destruct Hdangling as [Hs|Hc].
      * unfold u in Hd. rewrite (assign_all_department _ _ Hs) in Hd.
        apply (H5 e d); [rewrite in_app_iff; right; now left | assumption].
      * rewrite Hd in Hc. apply negb_false_iff in Hc.
        now apply existsb_key in Hc.
    + apply (H5 x d); [rewrite in_app_iff; right; now right | assumption].
  - intros i Hi. apply H7. rewrite map_app in *. simpl in *.
    rewrite Hid. now rewrite <- Hu.
Qed.

Lemma update_employee_wf (emp_id : Z) (name email : option string)
    (dept_id : option Z) (salary : option decimal) (db : database) :
  wf db -> wf (fst (update_employee emp_id name email dept_id salary db)).
Proof.
  intros Hwf. rewrite update_employee_eq.
  destruct (update_fields name email dept_id salary) as [|a fields];
    [exact Hwf|].
  destruct (Sql.update_employees (a :: fields) emp_id db) as [db' [n|x]] eqn:E;
    [|exact Hwf].
  simpl. eapply update_employees_wf; eauto.
Qed.

(** Every store the operations produce from the empty one satisfies the
    schema, with both sequences ahead of the ids handed out. *)
Lemma reachable_wf (db : database) : reachable db -> wf db.
Proof.
  induction 1 as [|db db' Hr IH Hs].
  - exact empty_db_wf.
  - destruct Hs.
    + now apply add_department_wf.
    + now apply delete_department_wf.
    + now apply add_employee_wf.
    + now apply update_employee_wf.
    + now apply delete_employee_wf.
Qed.

(** The three reading operations leave the store as it is. *)
Lemma reads_change_nothing (db : database) (name_part : string) (emp_id : Z) :
  fst (get_all_employees db) = db
  /\ fst (search_employees_by_name name_part db) = db
  /\ fst (get_employee_by_id emp_id db) = db.
Proof. repeat split. Qed.

(** The scenario of the specification: a department, an employee in it,
    the listing, the refused and then the accepted deletion. *)
Example engineering_scenario :
  let db1 := fst (add_department "Engineering" (init_db None)) in
  let db2 := fst (add_employee "Ada" "ada@x.com" (Some 1) (Some 9500000) db1) in
  let db3 := fst (delete_employee 1 db2) in
  snd (get_all_employees db2)
  = Returns [(1, "Ada", "ada@x.com", Some "Engineering", Some 9500000)]
  /\ delete_department 1 db2 = (db2, Raises HasDependents)
  /\ snd (delete_employee 1 db2) = Returns true
  /\ snd (delete_department 1 db3) = Returns true
  /\ departments (fst (delete_department 1 db3)) = [].
Proof. vm_compute. repeat split. Qed.

End Invariant.

(* ================================================================== *)
(** ** Facts about the search *)

Section Search.
Import Str StrFacts Like LikeFacts.

(** For a fragment without [%], [_] or backslash the pattern selects the
    names that hold the fragment, case set aside. *)
Lemma ilike_search_plain (fragment name : string) :
  has_meta fragment = false ->
  ilike name (search_pattern fragment) = contains_ignoring_case fragment name.
Proof.
  intros H. unfold ilike, search_pattern, contains_ignoring_case.
  rewrite (lower_app "%"), (lower_app fragment "%").
  change (lower "%") with "%".
  apply like_contains. now rewrite has_meta_lower.
Qed.

Lemma ilike_search_empty (name : string) :
  ilike name (search_pattern "") = true.
Proof.
  rewrite ilike_search_plain by reflexivity.
  unfold contains_ignoring_case. now destruct (lower name).
Qed.

Lemma filter_all {A : Type} (f : A -> bool) (l : list A) :
  (forall x, f x = true) -> filter f l = l.
Proof.
  intros H. induction l as [|a l IH]; simpl; [reflexivity|].
  now rewrite H, IH.
Qed.

Lemma filter_map_listing (q : Sql.listing -> bool)
    (l : list (employee * option department)) :
  filter q (map Sql.select_listing l)
  = map Sql.select_listing (filter (fun r => q (Sql.select_listing r)) l).
Proof.
  induction l as [|r l IH]; simpl; [reflexivity|].
  destruct (q (Sql.select_listing r)); simpl; now rewrite IH.
Qed.


(** The listing is in ascending order of employee id. *)
Lemma listing_sorted (db : database) :
  forall rows, snd (get_all_employees db) = Returns rows ->
  StronglySorted (fun a b => Sql.listing_id a <= Sql.listing_id b) rows.
Proof.
  intros rows. rewrite get_all_employees_eq. simpl. intros H.
  injection H as <-.
  pose proof (order_by_sorted (fun r : employee * option department =>
                                 e_id (fst r))
                (flat_map (Sql.left_join (departments db)) (employees db)))
    as Hs.
  induction Hs as [|r l Hs IH Hall]; simpl; constructor.
  - exact IH.
  - apply Forall_forall. intros x Hx. apply in_map_iff in Hx.
    destruct Hx as (y & <- & Hy). rewrite Forall_forall in Hall.
    specialize (Hall _ Hy). destruct r as [e d], y as [e' d']. exact Hall.
Qed.


End Search.

(* ================================================================== *)
(** ** The contract of the operations *)

Section Contract.

Lemma length_without_key {A : Type} (key : A -> Z) (k : Z) (l : list A) :
  NoDup (map key l) -> In k (map key l) ->
  S (List.length (filter (fun a => negb (key a =? k)) l)) = List.length l.
Proof.
  induction l as [|a l IH]; simpl; intros Hnd Hin; [contradiction|].
  inversion Hnd as [|? ? Ha Hl]; subst.
  destruct (key a =? k) eqn:E; simpl.
  - apply Z.eqb_eq in E. subst k.
    rewrite filter_negb_all; [reflexivity|].
    apply not_true_is_false. intros X.
    apply existsb_key in X. contradiction.
  - f_equal. apply IH; [assumption|].
    destruct Hin as [Hin|Hin]; [|assumption].
    apply Z.eqb_neq in E. contradiction.
Qed.

Lemma filter_single_key (e : employee) (l : list employee) :
  NoDup (map e_id l) -> In e l ->
  filter (fun x => e_id x =? e_id e) l = [e].
Proof.
  intros Hnd Hin. destruct (split_at_id e l Hnd Hin) as (l1 & l2 & -> & Ho).
  rewrite filter_app. simpl. rewrite Z.eqb_refl.
  rewrite !filter_none; [reflexivity| |];
    intros x Hx; apply Z.eqb_neq; apply Ho; rewrite in_app_iff; auto.
Qed.

(** C1.  [delete_department] first looks for an employee assigned to the
    department.  If there is one it raises the has-dependents error and the
    store is exactly as before: no department row is removed and no
    employee loses its [department_id].  If there is none, it removes the
    rows with that id and returns [True] when the id was present (exactly
    one row goes, ids being unique) and [False], with nothing changed, when
    it was not. *)
Theorem delete_department_guarded (db : database) (dept_id : Z) :
  ((exists e, In e (employees db) /\ e_department_id e = Some dept_id) ->
     delete_department dept_id db = (db, Raises HasDependents))
  /\ ((forall e, In e (employees db) -> e_department_id e <> Some dept_id) ->
      let kept :=
        filter (fun d => negb (d_id d =? dept_id)) (departments db) in
      (In dept_id (department_ids db) ->
         delete_department dept_id db = (set_departments kept db, Returns true)
         /\ (NoDup (department_ids db) ->
             S (List.length kept) = List.length (departments db)))
      /\ (~ In dept_id (department_ids db) ->
          delete_department dept_id db = (db, Returns false))).
Proof.
  rewrite delete_department_eq. split.
  - intros H. apply existsb_references in H. now rewrite H.
  - intros H.
    assert (E : existsb (references dept_id) (employees db) = false).
    { apply not_true_is_false. intros X.
      apply existsb_references in X. destruct X as (e & He & Hd).
      now apply H in He. }
    rewrite E. cbn zeta. split.
    + intros Hin. split.
      * apply (existsb_key d_id) in Hin. now rewrite Hin.
      * intros Hnd. now apply length_without_key.
    + intros Hnot.
      assert (X : existsb (fun d => d_id d =? dept_id) (departments db) = false).
      { apply not_true_is_false. intros X.
        apply existsb_key in X. contradiction. }
      rewrite X, (filter_negb_all _ _ X). unfold set_departments.
      now rewrite eta_database.
Qed.

Lemma delete_department_guarded_witness :
  delete_department 1 company = (company, Raises HasDependents)
  /\ (delete_department 2 company
      = (set_departments [engineering] company, Returns true)
      /\ 2%nat = List.length (departments company))
  /\ delete_department 7 company = (company, Returns false).
Proof.
  split; [|split].
  - apply (proj1 (delete_department_guarded company 1)).
    exists ana. split; [simpl; auto | reflexivity].
  - assert (Hfree : forall e, In e (employees company) ->
                      e_department_id e <> Some 2).
    { intros e [<-|[<-|[<-|[]]]]; discriminate. }
    destruct (proj1 (proj2 (delete_department_guarded company 2) Hfree))
      as [Heq Hlen].
    { simpl; auto. }
    split; [exact Heq|].
    apply Hlen. apply (wf_dept_pkey company_wf).
  - assert (Hfree : forall e, In e (employees company) ->
                      e_department_id e <> Some 7).
    { intros e [<-|[<-|[<-|[]]]]; discriminate. }
    apply (proj2 (proj2 (delete_department_guarded company 7) Hfree)).
    simpl. intros [H|[H|[]]]; discriminate.
Defined.



(** C7.  [get_employee_by_id] reads only.  With unique ids, for an employee
    of the table it returns that employee's row as
    [(id, name, email, department_id, salary)], the department as its raw
    id; for an id that is not in the table it returns [None].  It never
    raises. *)
Theorem get_employee_by_id_found_or_none (db : database) (emp_id : Z) :
  fst (get_employee_by_id emp_id db) = db
  /\ (forall e, NoDup (employee_ids db) -> In e (employees db) ->
      e_id e = emp_id ->
      snd (get_employee_by_id emp_id db)
      = Returns (Some (e_id e, e_name e, e_email e, e_department_id e,
                       e_salary e)))
  /\ (~ In emp_id (employee_ids db) ->
      snd (get_employee_by_id emp_id db) = Returns None)
  /\ (forall x, snd (get_employee_by_id emp_id db) <> Raises x).
Proof.
  rewrite get_employee_by_id_eq. simpl. repeat split.
  - intros e Hnd Hin <-. now rewrite (filter_single_key e _ Hnd Hin).
  - intros Hnot. rewrite filter_none; [reflexivity|].
    intros x Hx. apply Z.eqb_neq. intros Heq. apply Hnot.
    rewrite <- Heq. now apply in_map.
  - discriminate.
Qed.

Lemma get_employee_by_id_found_or_none_witness :
  snd (get_employee_by_id 2 company)
  = Returns (Some (2, "DIANA", "diana@x.com", None, Some 0))
  /\ snd (get_employee_by_id 20 company) = Returns None.
Proof.
  split.
  - apply (proj1 (proj2 (get_employee_by_id_found_or_none company 2)) diana).
    + apply (wf_emp_pkey company_wf).
    + simpl; auto.
    + reflexivity.
  - apply (proj1 (proj2 (proj2 (get_employee_by_id_found_or_none company 20)))).
    simpl. intros [H|[H|[H|[]]]]; discriminate.
Defined.

(** C10.  With the empty fragment the search returns what the full listing
    returns: the same rows in the same order, the store untouched. *)
Theorem search_empty_fragment (db : database) :
  search_employees_by_name "" db = get_all_employees db.
Proof.
  rewrite search_employees_by_name_eq, get_all_employees_eq.
  rewrite filter_all; [reflexivity|].
  intros r. apply ilike_search_empty.
Qed.




(** C8, as stated, fails: two integrity errors with the same class, the
    same SQLSTATE and the same constraint name, one worded as the English
    server words it and one worded otherwise, are classified differently. *)
Lemma classification_ignores_metadata :
  let e1 := unique_violation "employees_email_key" "email" "ana@x.com" in
  let e2 := mkError (err_class e1) (pgcode e1) (diag_constraint_name e1)
              "doppelter Schluesselwert verletzt Unique-Constraint" in
  err_class e1 = err_class e2
  /\ pgcode e1 = pgcode e2
  /\ diag_constraint_name e1 = diag_constraint_name e2
  /\ add_employee_except (Psycopg2 e1) = DuplicateEmail
  /\ add_employee_except (Psycopg2 e2) = Psycopg2 e2
  /\ update_employee_except (Psycopg2 e1) = DuplicateEmail
  /\ update_employee_except (Psycopg2 e2) = Psycopg2 e2.
Proof. vm_compute. repeat split. Qed.

(** C8, amended.  In [add_employee] and [update_employee] the kind of a
    store error is decided by its class and the words of its text alone:
    two errors of the same class with the same text are classified alike,
    whatever SQLSTATE and constraint name they carry.  In [add_department]
    the class alone decides.  No clause makes the has-dependents error out
    of a store error: that one comes from the check in
    [delete_department]. *)
Theorem classification_follows_text (e1 e2 : psycopg2_Error) :
  err_class e1 = err_class e2 ->
  (err_str e1 = err_str e2 ->
   (add_employee_except (Psycopg2 e1) = DuplicateEmail
    <-> add_employee_except (Psycopg2 e2) = DuplicateEmail)
   /\ (add_employee_except (Psycopg2 e1) = InvalidDepartment
       <-> add_employee_except (Psycopg2 e2) = InvalidDepartment)
   /\ (add_employee_except (Psycopg2 e1) = Psycopg2 e1
       <-> add_employee_except (Psycopg2 e2) = Psycopg2 e2)
   /\ (update_employee_except (Psycopg2 e1) = DuplicateEmail
       <-> update_employee_except (Psycopg2 e2) = DuplicateEmail)
   /\ (update_employee_except (Psycopg2 e1) = InvalidDepartment
       <-> update_employee_except (Psycopg2 e2) = InvalidDepartment)
   /\ (update_employee_except (Psycopg2 e1) = Psycopg2 e1
       <-> update_employee_except (Psycopg2 e2) = Psycopg2 e2))
  /\ (add_department_except (Psycopg2 e1) = DuplicateName
      <-> add_department_except (Psycopg2 e2) = DuplicateName)
  /\ (add_employee_except (Psycopg2 e1) <> HasDependents
      /\ update_employee_except (Psycopg2 e1) <> HasDependents
      /\ add_department_except (Psycopg2 e1) <> HasDependents).
Proof.
  intros Hc. split; [|split].
  3:{ unfold update_employee_except, add_employee_except,
        add_department_except.
      destruct (is_IntegrityError e1).
      - destruct (Str.contains "unique constraint" _
                  || Str.contains "duplicate key" _);
          [repeat split; discriminate|].
        destruct (Str.contains "foreign key" _); repeat split; discriminate.
      - repeat split; discriminate. }
  - intros Hs.
    unfold update_employee_except, add_employee_except, is_IntegrityError.
    rewrite Hc, Hs.
    destruct (err_class e2);
      try (repeat split; intros; (reflexivity || discriminate)).
    destruct (Str.contains "unique constraint" _ || Str.contains "duplicate key" _).
    { repeat split; intros; (reflexivity || discriminate). }
    destruct (Str.contains "foreign key" _);
      repeat split; intros; (reflexivity || discriminate).
  - unfold add_department_except, is_IntegrityError. rewrite Hc.
    destruct (err_class e2); split; intros; (reflexivity || discriminate).
Qed.

Lemma classification_follows_text_witness :
  add_employee_except
    (Psycopg2 (mkError IntegrityError "00000" None
                 (err_str (unique_violation "employees_email_key" "email"
                             "ana@x.com"))))
  = DuplicateEmail.
Proof.
  apply (proj1 (proj1 (classification_follows_text
                         (unique_violation "employees_email_key" "email"
                            "ana@x.com")
                         (mkError IntegrityError "00000" None
                            (err_str (unique_violation "employees_email_key"
                                        "email" "ana@x.com")))
                         eq_refl) eq_refl)).
  reflexivity.
Defined.






(** C9.  [update_employee] never clears an assignment: row by row, after
    the call the [department_id] is the one before or the department id
    supplied, the [salary] is the one before or the salary supplied; a row
    that had a department still has one, a row that had a salary still has
    one. *)
Theorem update_employee_never_clears (db : database) (emp_id : Z)
    (name email : option string) (dept_id : option Z)
    (salary : option decimal) :
  Forall2
    (fun old new =>
       e_id new = e_id old
       /\ (e_department_id new = e_department_id old
           \/ exists d, dept_id = Some d /\ e_department_id new = Some d)
       /\ (e_salary new = e_salary old
           \/ exists v, salary = Some v /\ e_salary new = Some v)
       /\ (e_department_id old <> None -> e_department_id new <> None)
       /\ (e_salary old <> None -> e_salary new <> None))
    (employees db)
    (employees (fst (update_employee emp_id name email dept_id salary db))).
Proof.
  assert (Hrefl : forall l : list employee,
    Forall2
      (fun old new =>
         e_id new = e_id old
         /\ (e_department_id new = e_department_id old
             \/ exists d, dept_id = Some d /\ e_department_id new = Some d)
         /\ (e_salary new = e_salary old
             \/ exists v, salary = Some v /\ e_salary new = Some v)
         /\ (e_department_id old <> None -> e_department_id new <> None)
         /\ (e_salary old <> None -> e_salary new <> None)) l l).
  { induction l; constructor; auto. }
  rewrite update_employee_eq.
  destruct (update_fields name email dept_id salary) as [|a fields] eqn:F;
    [apply Hrefl|].
  destruct (Sql.update_employees (a :: fields) emp_id db)
    as [db' [n|x]] eqn:E; [|apply Hrefl].
  apply update_employees_returns in E. destruct E as [-> _].
  cbn [fst set_employees employees].
  induction (employees db) as [|e l IH]; cbn [map]; constructor; [|exact IH].
  destruct (e_id e =? emp_id).
  - rewrite <- F, assign_all_update_fields. unfold updated_row. simpl.
    split; [reflexivity|].
    destruct dept_id as [d|], salary as [v|];
      repeat split; eauto; discriminate.
  - repeat split; auto.
Qed.

Lemma update_employee_never_clears_witness :
  Forall2
    (fun old new =>
       e_id new = e_id old
       /\ (e_department_id new = e_department_id old
           \/ exists d, @None Z = Some d /\ e_department_id new = Some d)
       /\ (e_salary new = e_salary old
           \/ exists v, @None decimal = Some v /\ e_salary new = Some v)
       /\ (e_department_id old <> None -> e_department_id new <> None)
       /\ (e_salary old <> None -> e_salary new <> None))
    (employees company)
    (employees (fst (update_employee 1 (Some "Anna") None None None company))).
Proof.
  exact (update_employee_never_clears company 1 (Some "Anna") None None None).
Defined.

(** C3 on the code: the fragment [_] is a wildcard to the store, so the
    search returns every employee of the company, although no name holds
    an underscore. *)
Theorem search_underscore_returns_all :
  snd (search_employees_by_name "_" company)
  = Returns [(1, "Ana", "ana@x.com", Some "Engineering", Some 9500000);
             (2, "DIANA", "diana@x.com", None, Some 0);
             (3, "Bob", "bob@x.com", Some "Engineering", None)]
  /\ map (fun e => contains_ignoring_case "_" (e_name e)) (employees company)
     = [false; false; false].
Proof. split; reflexivity. Qed.

End Contract.

(* ================================================================== *)
(** ** How an update comes out *)

Section UpdateOutcome.

Lemma updated_row_nothing (e : employee) :
  updated_row None None None None e = e.
Proof. now destruct e. Qed.

Lemma sets_email_update_fields (name email : option string)
    (dept_id : option Z) (salary : option decimal) :
  existsb Sql.sets_email (update_fields name email dept_id salary)
  = match email with Some _ => true | None => false end.
Proof. destruct name, email, dept_id, salary; reflexivity. Qed.

Lemma sets_department_update_fields (name email : option string)
    (dept_id : option Z) (salary : option decimal) :
  existsb Sql.sets_department (update_fields name email dept_id salary)
  = match dept_id with Some _ => true | None => false end.
Proof. destruct name, email, dept_id, salary; reflexivity. Qed.

Lemma more_than_one (a b : nat) :
  (1 <? a + S b)%nat = ((0 <? a)%nat || (0 <? b)%nat).
Proof.
  destruct (Nat.ltb_spec 1 (a + S b)), (Nat.ltb_spec 0 a),
    (Nat.ltb_spec 0 b); simpl; try reflexivity; lia.
Qed.

Lemma existsb_app_mid {A : Type} (f : A -> bool) (l1 l2 : list A) (a : A) :
  existsb f (l1 ++ a :: l2) = existsb f l1 || f a || existsb f l2.
Proof. rewrite existsb_app. simpl. now rewrite orb_assoc. Qed.

Lemma existsb_ext_in {A : Type} (f g : A -> bool) (l : list A) :
  (forall x, In x l -> f x = g x) -> existsb f l = existsb g l.
Proof.
  induction l as [|a l IH]; simpl; intros H; [reflexivity|].
  rewrite (H a) by auto. now rewrite IH by auto.
Qed.

(** The statement on an id that no row has: nothing is checked, nothing
    changes. *)
Lemma update_employees_absent (fields : list Sql.assignment) (emp_id : Z)
    (db : database) :
  ~ In emp_id (employee_ids db) ->
  Sql.update_employees fields emp_id db = (db, Returns 0%nat).
Proof.
  intros Hnot.
  assert (Hne : forall x, In x (employees db) -> e_id x <> emp_id).
  { intros x Hx Heq. apply Hnot. rewrite <- Heq. now apply in_map. }
  unfold Sql.update_employees.
  rewrite (map_hit_none _ _ _ Hne).
  rewrite (filter_none (fun e => e_id e =? emp_id) (employees db))
    by (intros x Hx; apply Z.eqb_neq; auto).
  cbn [find List.length]. unfold set_employees. now rewrite eta_database.
Qed.

(** The whole of [update_employee] on a row that exists, ids being
    unique: the email is checked against the other rows, then the
    department against the departments, then the row is written. *)
Lemma update_employee_outcome (db : database) (e : employee)
    (name email : option string) (dept_id : option Z)
    (salary : option decimal) :
  NoDup (employee_ids db) -> In e (employees db) ->
  update_employee (e_id e) name email dept_id salary db =
    if match email with
       | Some m =>
           existsb (fun x => negb (e_id x =? e_id e) && String.eqb (e_email x) m)
             (employees db)
       | None => false
       end
    then (db, Raises DuplicateEmail)
    else if match dept_id with
            | Some d => negb (existsb (fun r => d_id r =? d) (departments db))
            | None => false
            end
    then (db, Raises InvalidDepartment)
    else (set_employees
            (map (fun x => if e_id x =? e_id e
                           then updated_row name email dept_id salary x
                           else x) (employees db)) db,
          Returns true).
Proof.
  intros Hnd Hin. rewrite update_employee_eq.
  destruct (update_fields name email dept_id salary) as [|a fields] eqn:F.
  { apply update_fields_nil in F. destruct F as (-> & -> & -> & ->).
    rewrite (map_ext _ (fun x => x)).
    - rewrite map_id. unfold set_employees. now rewrite eta_database.
    - intros x. rewrite updated_row_nothing. now destruct (e_id x =? e_id e). }
  rewrite <- F. clear a fields F.
  destruct (split_at_id e _ Hnd Hin) as (l1 & l2 & Hl & Hother).
  set (fields := update_fields name email dept_id salary).
  set (u := updated_row name email dept_id salary e).
  assert (Hrows :
    map (fun x => if e_id x =? e_id e then Sql.assign_all fields x else x)
      (employees db) = (l1 ++ u :: l2)%list).
  { rewrite Hl, map_app. simpl.
    rewrite !map_hit_none
      by (intros x Hx; apply Hother; rewrite in_app_iff; auto).
    rewrite Z.eqb_refl. unfold fields, u.
    now rewrite assign_all_update_fields. }
  assert (Hrows' :
    map (fun x => if e_id x =? e_id e
                  then updated_row name email dept_id salary x else x)
      (employees db) = (l1 ++ u :: l2)%list).
  { rewrite <- Hrows. apply map_ext. intros x. unfold fields.
    now rewrite assign_all_update_fields. }
  assert (Hhit : filter (fun x => e_id x =? e_id e) (l1 ++ u :: l2)%list = [u]).
  { rewrite filter_app. simpl.
    replace (e_id u) with (e_id e) by reflexivity. rewrite Z.eqb_refl.
    rewrite !filter_none; [reflexivity| |];
      intros x Hx; apply Z.eqb_neq; apply Hother; rewrite in_app_iff; auto. }
  assert (Hothers : forall (p : employee -> bool) l,
             (forall x, In x l -> In x (l1 ++ l2)%list) ->
             existsb (fun x => negb (e_id x =? e_id e) && p x) l
             = (0 <? List.length (filter p l))%nat).
  { intros p l Hsub. rewrite length_pos_existsb. apply existsb_ext_in.
    intros x Hx. apply Hsub, Hother in Hx. apply Z.eqb_neq in Hx.
    now rewrite Hx. }
  unfold Sql.update_employees. rewrite Hrows, Hrows', Hhit.
  fold fields. unfold fields at 1 2.
  rewrite sets_email_update_fields, sets_department_update_fields.
  cbn [find].
  assert (Htaken :
    (match email with Some _ => true | None => false end
     && (1 <? List.length
                (filter (fun r => String.eqb (e_email r) (e_email u))
                   (l1 ++ u :: l2)%list))%nat)
    = match email with
      | Some m =>
          existsb (fun x => negb (e_id x =? e_id e) && String.eqb (e_email x) m)
            (employees db)
      | None => false
      end).
  { destruct email as [m|]; [|reflexivity]. cbn [andb].
    replace (e_email u) with m by reflexivity.
    rewrite Hl, existsb_app_mid, Z.eqb_refl. cbn [negb andb].
    rewrite orb_false_r.
    rewrite !Hothers by (intros x Hx; rewrite in_app_iff; auto).
    rewrite filter_app. simpl. rewrite String.eqb_refl.
    rewrite length_app. cbn [List.length]. now rewrite more_than_one. }
  rewrite Htaken.
  destruct (match email with
            | Some m => existsb _ (employees db)
            | None => false
            end).
  { now rewrite update_employee_except_eq, except_unique_violation. }
  assert (Hdangling :
    (match dept_id with Some _ => true | None => false end
     && match e_department_id u with
        | Some d => negb (existsb (fun r => d_id r =? d) (departments db))
        | None => false
        end)
    = match dept_id with
      | Some d => negb (existsb (fun r => d_id r =? d) (departments db))
      | None => false
      end).
  { destruct dept_id as [d|]; reflexivity. }
  rewrite Hdangling.
  destruct (match dept_id with
            | Some d => negb _
            | None => false
            end).
  { now rewrite update_employee_except_eq, except_foreign_key_violation. }
  reflexivity.
Qed.

End UpdateOutcome.

(* ================================================================== *)
(** ** Further properties of the employee operations *)

Section EmployeeOperations.



Lemma filter_filter_other (j k : Z) (l : list employee) :
  j <> k ->
  filter (fun x => e_id x =? j) (filter (fun x => negb (e_id x =? k)) l)
  = filter (fun x => e_id x =? j) l.
Proof.
  intros Hjk. induction l as [|a l IH]; simpl; [reflexivity|].
  destruct (e_id a =? k) eqn:Ek; simpl.
  - apply Z.eqb_eq in Ek.
    assert (E : (e_id a =? j) = false) by (apply Z.eqb_neq; congruence).
    now rewrite E.
  - destruct (e_id a =? j); now rewrite IH.
Qed.

(** X1.  [delete_employee] never raises and never touches the departments.
    It removes the rows with the given id and returns [True] exactly when
    the id was present; with unique ids exactly one row goes; for an id
    that is not present the store is as before. *)
Theorem delete_employee_removes (db : database) (emp_id : Z) :
  let kept := filter (fun e => negb (e_id e =? emp_id)) (employees db) in
  (In emp_id (employee_ids db) ->
     delete_employee emp_id db = (set_employees kept db, Returns true)
     /\ (NoDup (employee_ids db) ->
         S (List.length kept) = List.length (employees db)))
  /\ (~ In emp_id (employee_ids db) ->
      delete_employee emp_id db = (db, Returns false)).
Proof.
  cbn zeta. rewrite delete_employee_eq. split.
  - intros Hin. split.
    + apply (existsb_key e_id) in Hin. now rewrite Hin.
    + intros Hnd. now apply length_without_key.
  - intros Hnot.
    assert (X : existsb (fun e => e_id e =? emp_id) (employees db) = false).
    { apply not_true_is_false. intros X. apply existsb_key in X.
      contradiction. }
    rewrite X, (filter_negb_all _ _ X). unfold set_employees.
    now rewrite eta_database.
Qed.

Lemma delete_employee_removes_witness :
  delete_employee 2 company = (set_employees [ana; bob] company, Returns true)
  /\ 3%nat = List.length (employees company)
  /\ delete_employee 20 company = (company, Returns false).
Proof.
  destruct (proj1 (delete_employee_removes company 2)) as [Heq Hlen].
  { simpl; auto. }
  split; [exact Heq|]. split.
  - apply Hlen. apply (wf_emp_pkey company_wf).
  - apply (proj2 (delete_employee_removes company 20)).
    simpl. intros [H|[H|[H|[]]]]; discriminate.
Defined.

(** X2.  After [delete_employee] the id is gone: [get_employee_by_id] on it
    returns [None], a second [delete_employee] returns [False] and changes
    nothing, and the lookup of every other id answers as before. *)
Theorem delete_employee_then_lookup (db : database) (emp_id : Z) :
  let db' := fst (delete_employee emp_id db) in
  snd (get_employee_by_id emp_id db') = Returns None
  /\ delete_employee emp_id db' = (db', Returns false)
  /\ (forall j, j <> emp_id ->
      snd (get_employee_by_id j db') = snd (get_employee_by_id j db)).
Proof.
  cbn zeta. rewrite delete_employee_eq. cbn [fst].
  assert (Hgone : forall x,
            In x (filter (fun e => negb (e_id e =? emp_id)) (employees db)) ->
            (e_id x =? emp_id) = false).
  { intros x Hx. apply filter_In in Hx. now apply negb_true_iff. }
  split; [|split].
  - rewrite get_employee_by_id_eq. cbn [snd set_employees employees].
    now rewrite (filter_none _ _ Hgone).
  - rewrite delete_employee_eq. cbn [set_employees employees].
    assert (X : existsb (fun e => e_id e =? emp_id)
                  (filter (fun e => negb (e_id e =? emp_id)) (employees db))
                = false).
    { apply not_true_is_false. intros X. apply existsb_exists in X.
      destruct X as (x & Hx & Hid). apply Hgone in Hx. congruence. }
    rewrite X, (filter_negb_all _ _ X). reflexivity.
  - intros j Hj. rewrite !get_employee_by_id_eq.
    cbn [snd set_employees employees]. now rewrite filter_filter_other.
Qed.

Lemma delete_employee_then_lookup_witness :
  snd (get_employee_by_id 3 (fst (delete_employee 2 company)))
  = snd (get_employee_by_id 3 company).
Proof.
  apply (proj2 (proj2 (delete_employee_then_lookup company 2)) 3).
  discriminate.
Defined.





End EmployeeOperations.

(* ================================================================== *)
(** ** Further properties of [update_employee] *)

Section UpdateProperties.

Lemma update_employee_absent_eq (db : database) (emp_id : Z)
    (name email : option string) (dept_id : option Z)
    (salary : option decimal) :
  ~ In emp_id (employee_ids db) ->
  update_employee emp_id name email dept_id salary db =
    (db, Returns match update_fields name email dept_id salary with
                 | [] => true
                 | _ :: _ => false
                 end).
Proof.
  intros Hnot. rewrite update_employee_eq.
  destruct (update_fields name email dept_id salary); [reflexivity|].
  now rewrite update_employees_absent.
Qed.

Lemma in_employee_ids (db : database) (emp_id : Z) :
  In emp_id (employee_ids db)
  -> exists e, In e (employees db) /\ e_id e = emp_id.
Proof.
  unfold employee_ids. rewrite in_map_iff. intros (e & He & Hin). eauto.
Qed.











Lemma existsb_map_comp {A B : Type} (f : B -> bool) (g : A -> B)
    (l : list A) :
  existsb f (map g l) = existsb (fun x => f (g x)) l.
Proof.
  induction l as [|a l IH]; simpl; [reflexivity | now rewrite IH].
Qed.

Lemma updated_row_twice (name email : option string) (dept_id : option Z)
    (salary : option decimal) (e : employee) :
  updated_row name email dept_id salary
    (updated_row name email dept_id salary e)
  = updated_row name email dept_id salary e.
Proof. destruct name, email, dept_id, salary; reflexivity. Qed.

(** X8.  With unique ids, [update_employee] is idempotent: when a call
    returns, the same call on the store it left returns the same value and
    leaves that store as it is. *)
Theorem update_employee_idempotent (db : database) (emp_id : Z)
    (name email : option string) (dept_id : option Z)
    (salary : option decimal) (b : bool) :
  NoDup (employee_ids db) ->
  snd (update_employee emp_id name email dept_id salary db) = Returns b ->
  update_employee emp_id name email dept_id salary
    (fst (update_employee emp_id name email dept_id salary db))
  = (fst (update_employee emp_id name email dept_id salary db), Returns b).
Proof.
  intros Hnd.
  destruct (existsb (fun e => e_id e =? emp_id) (employees db)) eqn:Ex.
  2:{ assert (Hnot : ~ In emp_id (employee_ids db)).
      { intros H. apply (existsb_key e_id) in H. congruence. }
      rewrite (update_employee_absent_eq _ _ _ _ _ _ Hnot). cbn [fst snd].
      intros H. injection H as <-.
      now rewrite (update_employee_absent_eq _ _ _ _ _ _ Hnot). }
  apply (existsb_key e_id), in_employee_ids in Ex.
  destruct Ex as (e & He & <-).
  rewrite (update_employee_outcome db e name email dept_id salary Hnd He).
  destruct (match email with Some _ => _ | None => false end) eqn:Et;
    [discriminate|].
  destruct (match dept_id with Some _ => _ | None => false end) eqn:Ed;
    [discriminate|].
  cbn [fst snd]. intros H. injection H as <-.
  set (g := fun x => if e_id x =? e_id e
                     then updated_row name email dept_id salary x else x).
  assert (Hid : forall x, e_id (g x) = e_id x).
  { intros x. unfold g. now destruct (e_id x =? e_id e). }
  assert (Hgg : forall x, g (g x) = g x).
  { intros x. unfold g at 1. rewrite Hid. unfold g.
    destruct (e_id x =? e_id e); [apply updated_row_twice | reflexivity]. }
  set (db' := set_employees (map g (employees db)) db).
  assert (Hnd' : NoDup (employee_ids db')).
  { unfold employee_ids, db'. cbn [set_employees employees].
    rewrite map_map. now rewrite (map_ext _ e_id Hid). }
  assert (He' : In (updated_row name email dept_id salary e) (employees db')).
  { unfold db'. cbn [set_employees employees]. apply in_map_iff.
    exists e. split; [|assumption]. unfold g. now rewrite Z.eqb_refl. }
  pose proof (update_employee_outcome db' _ name email dept_id salary
                Hnd' He') as Hout.
  cbn [updated_row e_id] in Hout. rewrite Hout. clear Hout.
  assert (Et' :
    match email with
    | Some m =>
        existsb (fun x => negb (e_id x =? e_id e) && String.eqb (e_email x) m)
          (employees db')
    | None => false
    end = false).
  { destruct email as [m|]; [|reflexivity]. rewrite <- Et.
    unfold db'. cbn [set_employees employees]. rewrite existsb_map_comp.
    apply existsb_ext_in. intros x _. unfold g.
    destruct (e_id x =? e_id e) eqn:E; [|now rewrite E].
    cbn [updated_row e_id]. now rewrite E. }
  rewrite Et'. unfold db' at 1. cbn [set_employees departments]. rewrite Ed.
  f_equal. unfold db', set_employees.
  cbn [employees departments departments_id_seq employees_id_seq].
  f_equal. rewrite map_map. apply map_ext. exact Hgg.
Qed.

Lemma update_employee_idempotent_witness :
  update_employee 3 (Some "Robert") None (Some 2) None
    (fst (update_employee 3 (Some "Robert") None (Some 2) None company))
  = (fst (update_employee 3 (Some "Robert") None (Some 2) None company),
     Returns true).
Proof.
  apply (update_employee_idempotent company 3 (Some "Robert") None (Some 2)
           None true (wf_emp_pkey company_wf)).
  reflexivity.
Defined.

End UpdateProperties.

(* ================================================================== *)
(** ** Further properties of the listing and the search *)

Section Listing.

Lemma insert_by_perm {R : Type} (key : R -> Z) (r : R) (rows : list R) :
  Permutation.Permutation (Sql.insert_by key r rows) (r :: rows).
Proof.
  induction rows as [|r' rows IH]; simpl.
  - apply Permutation.Permutation_refl.
  - destruct (key r <=? key r'); [apply Permutation.Permutation_refl|].
    eapply Permutation.perm_trans; [apply Permutation.perm_skip, IH|].
    apply Permutation.perm_swap.
Qed.

Lemma order_by_perm {R : Type} (key : R -> Z) (rows : list R) :
  Permutation.Permutation (Sql.order_by key rows) rows.
Proof.
  induction rows as [|r rows IH]; simpl; [apply Permutation.perm_nil|].
  eapply Permutation.perm_trans; [apply insert_by_perm|].
  now apply Permutation.perm_skip.
Qed.

Lemma references_iff (d : Z) (e : employee) :
  references d e = true <-> e_department_id e = Some d.
Proof.
  unfold references. destruct (e_department_id e) as [d'|].
  - rewrite Z.eqb_eq. split; congruence.
  - split; discriminate.
Qed.

Lemma left_join_fst (ds : list department) (e : employee)
    (p : employee * option department) :
  In p (Sql.left_join ds e) -> fst p = e.
Proof.
  unfold Sql.left_join.
  destruct (filter _ ds) as [|d ds'].
  - intros [<-|[]]. reflexivity.
  - intros H. apply in_map_iff in H. now destruct H as (x & <- & _).
Qed.

(** The rows the join makes for one employee. *)
Lemma left_join_In (ds : list department) (e : employee)
    (p : employee * option department) :
  In p (Sql.left_join ds e)
  <-> fst p = e
      /\ ((snd p = None
           /\ forall d, In d ds -> e_department_id e <> Some (d_id d))
          \/ exists d, In d ds /\ e_department_id e = Some (d_id d)
                       /\ snd p = Some d).
Proof.
  unfold Sql.left_join.
  destruct (filter (fun d => references (d_id d) e) ds) as [|d0 ds'] eqn:F.
  - assert (Hnone : forall d, In d ds -> e_department_id e <> Some (d_id d)).
    { intros d Hd Heq. apply references_iff in Heq.
      assert (X : In d (filter (fun d => references (d_id d) e) ds))
        by (apply filter_In; auto).
      rewrite F in X. contradiction. }
    split.
    + intros [<-|[]]. split; [reflexivity|]. left. auto.
    + intros (Hf & [(Hs & _)|(d & Hd & Heq & _)]).
      * left. destruct p as [x y]. simpl in *. now subst.
      * exfalso. eapply Hnone; eauto.
  - rewrite <- F. rewrite in_map_iff. split.
    + intros (d & <- & Hd). apply filter_In in Hd. destruct Hd as [Hd Hr].
      apply references_iff in Hr. split; [reflexivity|]. right. eauto.
    + intros (Hf & [(_ & Hnone)|(d & Hd & Heq & Hs)]).
      * exfalso.
        assert (X : In d0 (filter (fun d => references (d_id d) e) ds))
          by (rewrite F; now left).
        apply filter_In in X. destruct X as [X1 X2].
        apply references_iff in X2. eapply Hnone; eauto.
      * exists d. destruct p as [x y]. simpl in *. subst.
        split; [reflexivity|]. apply filter_In. split; [assumption|].
        now apply references_iff.
Qed.

Lemma filter_key_at_most_one (ds : list department) (k : Z) :
  NoDup (map d_id ds) ->
  (List.length (filter (fun d => (k =? d_id d)%Z) ds) <= 1)%nat.
Proof.
  induction ds as [|d ds IH]; simpl; intros Hnd; [lia|].
  inversion Hnd as [|? ? Hd Hds]; subst.
  destruct (k =? d_id d) eqn:E; [|auto].
  apply Z.eqb_eq in E. subst k. simpl.
  rewrite filter_none; [simpl; lia|].
  intros x Hx. apply Z.eqb_neq. intros Heq. apply Hd. rewrite Heq.
  now apply in_map.
Qed.

(** With unique department ids the join makes one row per employee. *)
Lemma left_join_one (ds : list department) (e : employee) :
  NoDup (map d_id ds) -> exists od, Sql.left_join ds e = [(e, od)].
Proof.
  intros Hnd. unfold Sql.left_join.
  destruct (e_department_id e) as [k|] eqn:Ek.
  - pose proof (filter_key_at_most_one ds k Hnd) as Hlen.
    rewrite (filter_ext (fun d => references (d_id d) e)
               (fun d => k =? d_id d))
      by (intros d; unfold references; now rewrite Ek).
    destruct (filter _ ds) as [|d [|d' ds']].
    + now exists None.
    + now exists (Some d).
    + simpl in Hlen. lia.
  - rewrite filter_none; [now exists None|].
    intros d _. unfold references. now rewrite Ek.
Qed.

Lemma joined_employees (ds : list department) (es : list employee) :
  NoDup (map d_id ds) ->
  map fst (flat_map (Sql.left_join ds) es) = es.
Proof.
  intros Hnd. induction es as [|e es IH]; simpl; [reflexivity|].
  destruct (left_join_one ds e Hnd) as (od & ->). simpl. now rewrite IH.
Qed.

Lemma listing_id_select (r : employee * option department) :
  Sql.listing_id (Sql.select_listing r) = e_id (fst r).
Proof. now destruct r. Qed.

Lemma sorted_strict (l : list Z) :
  StronglySorted Z.le l -> NoDup l -> StronglySorted Z.lt l.
Proof.
  induction 1 as [|a l Hs IH Hall]; intros Hnd; constructor.
  - apply IH. now inversion Hnd.
  - inversion Hnd as [|? ? Ha Hl]; subst.
    rewrite Forall_forall in *. intros x Hx.
    specialize (Hall x Hx).
    assert (a <> x) by (intros ->; contradiction). lia.
Qed.

Lemma sorted_map {R : Type} (key : R -> Z) (l : list R) :
  StronglySorted (fun a b => key a <= key b) l ->
  StronglySorted Z.le (map key l).
Proof.
  induction 1 as [|a l Hs IH Hall]; simpl; constructor; [assumption|].
  rewrite Forall_forall in *. intros x Hx. apply in_map_iff in Hx.
  destruct Hx as (y & <- & Hy). now apply Hall.
Qed.

(** X9.  In a store that satisfies its schema, [get_all_employees] returns
    exactly one row per employee, in strictly ascending order of id, and
    leaves the store as it is. *)
Theorem listing_one_row_per_employee (db : database) :
  wf db ->
  exists rows,
    get_all_employees db = (db, Returns rows)
    /\ Permutation.Permutation (map Sql.listing_id rows) (employee_ids db)
    /\ StronglySorted Z.lt (map Sql.listing_id rows)
    /\ List.length rows = List.length (employees db).
Proof.
  intros Hwf. rewrite get_all_employees_eq. eexists. split; [reflexivity|].
  set (joined := flat_map (Sql.left_join (departments db)) (employees db)).
  set (key := fun r : employee * option department => e_id (fst r)).
  assert (Hids : map Sql.listing_id
                   (map Sql.select_listing (Sql.order_by key joined))
                 = map key (Sql.order_by key joined)).
  { rewrite map_map. apply map_ext. apply listing_id_select. }
  assert (Hperm : Permutation.Permutation (map key (Sql.order_by key joined))
                    (employee_ids db)).
  { replace (employee_ids db) with (map key joined).
    - apply Permutation.Permutation_map, order_by_perm.
    - unfold key, joined, employee_ids.
      rewrite <- (map_map fst e_id).
      now rewrite (joined_employees _ _ (wf_dept_pkey Hwf)). }
  rewrite Hids. split; [exact Hperm|]. split.
  - apply sorted_strict.
    + apply sorted_map, order_by_sorted.
    + apply (Permutation.Permutation_NoDup (Permutation.Permutation_sym Hperm)).
      apply (wf_emp_pkey Hwf).
  - rewrite length_map.
    rewrite (Permutation.Permutation_length (order_by_perm key joined)).
    unfold joined.
    rewrite <- (length_map fst).
    now rewrite (joined_employees _ _ (wf_dept_pkey Hwf)).
Qed.

Lemma listing_one_row_per_employee_witness :
  exists rows,
    get_all_employees company = (company, Returns rows)
    /\ Permutation.Permutation (map Sql.listing_id rows) (employee_ids company)
    /\ StronglySorted Z.lt (map Sql.listing_id rows)
    /\ List.length rows = List.length (employees company).
Proof.
  exact (listing_one_row_per_employee company company_wf).
Defined.

(** X10.  The department column of [get_all_employees]: an employee whose
    [department_id] is the id of a department is listed with that
    department's name, an employee assigned to no department is listed
    with [None], and every row of the listing is such a row of an employee
    of the table, with the employee's own id, name, email and salary. *)
Theorem listing_department_column (db : database) :
  exists rows,
    snd (get_all_employees db) = Returns rows
    /\ (forall e, In e (employees db) ->
        (forall d, In d (departments db) ->
           e_department_id e <> Some (d_id d)) ->
        In (e_id e, e_name e, e_email e, None, e_salary e) rows)
    /\ (forall e d, In e (employees db) -> In d (departments db) ->
        e_department_id e = Some (d_id d) ->
        In (e_id e, e_name e, e_email e, Some (d_name d), e_salary e) rows)
    /\ (forall row, In row rows ->
        exists e, In e (employees db)
          /\ ((row = (e_id e, e_name e, e_email e, None, e_salary e)
               /\ forall d, In d (departments db) ->
                    e_department_id e <> Some (d_id d))
              \/ exists d, In d (departments db)
                   /\ e_department_id e = Some (d_id d)
                   /\ row = (e_id e, e_name e, e_email e, Some (d_name d),
                             e_salary e))).
Proof.
  rewrite get_all_employees_eq. eexists. split; [reflexivity|].
  assert (Hrow : forall row,
    In row (map Sql.select_listing
              (Sql.order_by (fun r => e_id (fst r))
                 (flat_map (Sql.left_join (departments db)) (employees db))))
    <-> exists e od, In e (employees db)
          /\ In (e, od) (Sql.left_join (departments db) e)
          /\ row = (e_id e, e_name e, e_email e, option_map d_name od,
                    e_salary e)).
  { intros row. rewrite in_map_iff. split.
    - intros ([e od] & <- & Hp). apply order_by_In, in_flat_map in Hp.
      destruct Hp as (e' & He' & Hp).
      pose proof (left_join_fst _ _ _ Hp) as Hf. simpl in Hf. subst e'.
      exists e, od. auto.
    - intros (e & od & He & Hp & ->). exists (e, od).
      split; [reflexivity|]. apply order_by_In, in_flat_map. eauto. }
  split; [|split].
  - intros e He Hnone. apply Hrow. exists e, None.
    split; [assumption|]. split; [|reflexivity].
    apply left_join_In. split; [reflexivity|]. left. auto.
  - intros e d He Hd Heq. apply Hrow. exists e, (Some d).
    split; [assumption|]. split; [|reflexivity].
    apply left_join_In. split; [reflexivity|]. right. exists d. auto.
  - intros row Hin. apply Hrow in Hin.
    destruct Hin as (e & od & He & Hp & ->). exists e.
    split; [assumption|]. apply left_join_In in Hp.
    destruct Hp as (_ & [(Hs & Hnone)|(d & Hd & Heq & Hs)]);
      simpl in Hs; subst od.
    + left. auto.
    + right. exists d. auto.
Qed.

Lemma listing_department_column_witness :
  exists rows,
    snd (get_all_employees company) = Returns rows
    /\ In (2, "DIANA", "diana@x.com", None, Some 0) rows
    /\ In (3, "Bob", "bob@x.com", Some "Engineering", None) rows.
Proof.
  destruct (listing_department_column company)
    as (rows & Hrows & Hnone & Hsome & _).
  exists rows. split; [exact Hrows|]. split.
  - apply (Hnone diana); [simpl; auto|].
    intros d _. discriminate.
  - apply (Hsome bob engineering); [simpl; auto | simpl; auto | reflexivity].
Defined.





(** X13.  The case of the letters of the fragment does not matter: two
    fragments that are equal once lower-cased give the same search. *)
Theorem search_fragment_case (db : database) (f1 f2 : string) :
  Str.lower f1 = Str.lower f2 ->
  search_employees_by_name f1 db = search_employees_by_name f2 db.
Proof.
  intros H. rewrite !search_employees_by_name_eq. do 4 f_equal.
  apply filter_ext. intros r. unfold Like.ilike, search_pattern.
  now rewrite !(StrFacts.lower_app "%"), !(StrFacts.lower_app _ "%"), H.
Qed.

Lemma search_fragment_case_witness :
  search_employees_by_name "ANA" company
  = search_employees_by_name "ana" company.
Proof.
  apply search_fragment_case. reflexivity.
Defined.

Lemma filter_all_in {A : Type} (f : A -> bool) (l : list A) :
  (forall x, In x l -> f x = true) -> filter f l = l.
Proof.
  induction l as [|a l IH]; simpl; intros H; [reflexivity|].
  rewrite (H a) by auto. now rewrite IH by auto.
Qed.

Lemma filter_filter_implied {A : Type} (f g : A -> bool) (l : list A) :
  (forall x, f x = true -> g x = true) ->
  filter f (filter g l) = filter f l.
Proof.
  intros H. induction l as [|a l IH]; simpl; [reflexivity|].
  destruct (g a) eqn:G; simpl.
  - now rewrite IH.
  - destruct (f a) eqn:F; [|exact IH].
    apply H in F. congruence.
Qed.

Lemma left_join_without (ds : list department) (k : Z) (e : employee) :
  references k e = false ->
  Sql.left_join (filter (fun d => negb (d_id d =? k)) ds) e
  = Sql.left_join ds e.
Proof.
  intros H. unfold Sql.left_join. rewrite filter_filter_implied; [reflexivity|].
  intros d Hd. apply negb_true_iff, Z.eqb_neq. intros Heq.
  rewrite Heq in Hd. congruence.
Qed.

Lemma left_join_with (ds : list department) (d : department) (e : employee) :
  references (d_id d) e = false ->
  Sql.left_join (ds ++ [d]) e = Sql.left_join ds e.
Proof.
  intros H. unfold Sql.left_join. rewrite filter_app. simpl.
  now rewrite H, app_nil_r.
Qed.

Lemma flat_map_ext_in {A B : Type} (f g : A -> list B) (l : list A) :
  (forall a, In a l -> f a = g a) -> flat_map f l = flat_map g l.
Proof.
  induction l as [|a l IH]; simpl; intros H; [reflexivity|].
  rewrite (H a) by auto. now rewrite IH by auto.
Qed.

Lemma flat_map_filter_join (ds : list department) (q : employee -> bool)
    (es : list employee) :
  flat_map (Sql.left_join ds) (filter q es)
  = filter (fun p => q (fst p)) (flat_map (Sql.left_join ds) es).
Proof.
  induction es as [|e es IH]; simpl; [reflexivity|].
  rewrite filter_app, <- IH.
  assert (Hq : forall b, q e = b ->
            filter (fun p => q (fst p)) (Sql.left_join ds e)
            = if b then Sql.left_join ds e else []).
  { intros b Hb. destruct b.
    - apply filter_all_in. intros p Hp.
      now rewrite (left_join_fst _ _ _ Hp).
    - apply filter_none. intros p Hp. now rewrite (left_join_fst _ _ _ Hp). }
  rewrite (Hq _ eq_refl). now destruct (q e).
Qed.

(** X14.  Neither adding nor deleting a department changes what
    [get_all_employees] returns: in a store that satisfies its schema the
    listing after [add_department] is the listing before, and in any store
    the listing after [delete_department] is the listing before. *)
Theorem departments_leave_listing (db : database) (name : string)
    (dept_id : Z) :
  (wf db ->
   snd (get_all_employees (fst (add_department name db)))
   = snd (get_all_employees db))
  /\ snd (get_all_employees (fst (delete_department dept_id db)))
     = snd (get_all_employees db).
Proof.
  split.
  - intros Hwf. rewrite add_department_eq. cbn zeta.
    destruct (_ || _); [reflexivity|].
    rewrite !get_all_employees_eq.
    cbn [fst snd set_departments departments employees].
    do 3 f_equal. apply flat_map_ext_in. intros e He.
    apply left_join_with. cbn [d_id].
    apply not_true_is_false. intros Hr. apply references_iff in Hr.
    apply (wf_fkey Hwf _ _ He) in Hr. apply (wf_dept_seq Hwf) in Hr. lia.
  - rewrite delete_department_eq.
    destruct (existsb (references dept_id) (employees db)) eqn:E;
      [reflexivity|].
    rewrite !get_all_employees_eq.
    cbn [fst snd set_departments departments employees].
    do 3 f_equal. apply flat_map_ext_in. intros e He.
    apply left_join_without.
    apply not_true_is_false. intros Hr.
    assert (X : existsb (references dept_id) (employees db) = true)
      by (apply existsb_exists; eauto).
    congruence.
Qed.

Lemma departments_leave_listing_witness :
  snd (get_all_employees (fst (add_department "Support" company)))
  = snd (get_all_employees company).
Proof.
  exact (proj1 (departments_leave_listing company "Support" 0) company_wf).
Defined.

(** X15.  After [delete_employee] the listing is the listing before
    without the rows of that id, the other rows in their order. *)
Theorem delete_employee_listing (db : database) (emp_id : Z) :
  exists rows,
    snd (get_all_employees db) = Returns rows
    /\ snd (get_all_employees (fst (delete_employee emp_id db)))
       = Returns (filter (fun row => negb (Sql.listing_id row =? emp_id))
                    rows).
Proof.
  rewrite delete_employee_eq, !get_all_employees_eq.
  cbn [fst snd set_employees departments employees].
  eexists. split; [reflexivity|]. f_equal.
  rewrite filter_map_listing, filter_order_by, flat_map_filter_join.
  do 2 f_equal. apply filter_ext. intros r.
  now rewrite listing_id_select.
Qed.

(** X16.  In a store that satisfies its schema, a department that
    [add_department] has just added can be deleted again:
    [delete_department] on the new id returns [True] and both tables are
    as they were before the department was added. *)
Theorem add_department_then_delete (db : database) (name : string) :
  wf db ->
  snd (add_department name db) = Returns tt ->
  let id := departments_id_seq db in
  let db1 := fst (add_department name db) in
  snd (delete_department id db1) = Returns true
  /\ departments (fst (delete_department id db1)) = departments db
  /\ employees (fst (delete_department id db1)) = employees db.
Proof.
  intros Hwf. cbn zeta. rewrite add_department_eq. cbn zeta.
  destruct (_ || _); [discriminate|]. intros _.
  cbn [fst]. rewrite delete_department_eq.
  cbn [set_departments departments employees].
  assert (E : existsb (references (departments_id_seq db)) (employees db)
              = false).
  { apply not_true_is_false. intros X. apply existsb_references in X.
    destruct X as (e & He & Hd).
    apply (wf_fkey Hwf _ _ He), (wf_dept_seq Hwf) in Hd. lia. }
  rewrite E. cbn [fst snd set_departments departments employees].
  rewrite existsb_app, filter_app. cbn [existsb filter d_id].
  rewrite Z.eqb_refl. cbn [negb]. rewrite orb_true_r, app_nil_r.
  repeat split. apply filter_negb_all.
  apply existsb_key_below, (wf_dept_seq Hwf).
Qed.

Lemma add_department_then_delete_witness :
  snd (delete_department 3 (fst (add_department "Support" company)))
  = Returns true
  /\ departments
       (fst (delete_department 3 (fst (add_department "Support" company))))
     = departments company.
Proof.
  destruct (add_department_then_delete company "Support" company_wf eq_refl)
    as (H1 & H2 & _).
  split; [exact H1 | exact H2].
Defined.

End Listing.

(* ================================================================== *)
(** ** The schema is kept, and the department listing *)

Section SchemaAndDepartments.

Lemma step_wf (db db' : database) : wf db -> step db db' -> wf db'.
Proof.
  intros Hwf Hs. destruct Hs.
  - now apply add_department_wf.
  - now apply delete_department_wf.
  - now apply add_employee_wf.
  - now apply update_employee_wf.
  - now apply delete_employee_wf.
Qed.

(** X17.  Every writing operation keeps the constraints of the schema, so
    in every store the operations produce from the empty one the employee
    emails are pairwise different, so are the department names and the ids
    of either table, and every [department_id] of an employee is the id of
    a department. *)
Theorem operations_keep_schema :
  (forall db db', wf db -> step db db' -> wf db')
  /\ (forall db, reachable db ->
      NoDup (employee_emails db)
      /\ NoDup (department_names db)
      /\ NoDup (employee_ids db)
      /\ NoDup (department_ids db)
      /\ forall e d, In e (employees db) -> e_department_id e = Some d ->
           In d (department_ids db)).
Proof.
  split; [exact step_wf|].
  intros db Hr. apply reachable_wf in Hr.
  destruct Hr as [H1 H2 H3 H4 H5 _ _]. auto.
Qed.

Lemma operations_keep_schema_witness :
  NoDup (employee_emails
           (fst (add_employee "Ada" "ada@x.com" (Some 1) None
                   (fst (add_department "Engineering" (init_db None)))))).
Proof.
  apply (proj2 operations_keep_schema).
  eapply reachable_step; [|apply step_add_employee].
  eapply reachable_step; [|apply step_add_department].
  apply reachable_init.
Defined.

Section Collated.
Variable name_le : string -> string -> bool.
Hypothesis name_le_total :
  forall a b, name_le a b = true \/ name_le b a = true.

Lemma insert_by_name_perm (r : department) (rows : list department) :
  Permutation.Permutation (insert_by_name name_le r rows) (r :: rows).
Proof.
  induction rows as [|r' rows IH]; simpl.
  - apply Permutation.Permutation_refl.
  - destruct (name_le (d_name r) (d_name r'));
      [apply Permutation.Permutation_refl|].
    eapply Permutation.perm_trans; [apply Permutation.perm_skip, IH|].
    apply Permutation.perm_swap.
Qed.

Lemma order_by_name_perm (rows : list department) :
  Permutation.Permutation (order_by_name name_le rows) rows.
Proof.
  induction rows as [|r rows IH]; simpl; [apply Permutation.perm_nil|].
  eapply Permutation.perm_trans; [apply insert_by_name_perm|].
  now apply Permutation.perm_skip.
Qed.

Lemma insert_by_name_hd (a r : department) (rows : list department) :
  name_le (d_name a) (d_name r) = true ->
  HdRel (fun x y => name_le (d_name x) (d_name y) = true) a rows ->
  HdRel (fun x y => name_le (d_name x) (d_name y) = true) a
    (insert_by_name name_le r rows).
Proof.
  intros Har Hhd. destruct rows as [|r' rows]; simpl.
  - now constructor.
  - destruct (name_le (d_name r) (d_name r')); constructor; [assumption|].
    now inversion Hhd.
Qed.

Lemma insert_by_name_sorted (r : department) (rows : list department) :
  Sorted (fun x y => name_le (d_name x) (d_name y) = true) rows ->
  Sorted (fun x y => name_le (d_name x) (d_name y) = true)
    (insert_by_name name_le r rows).
Proof.
  induction 1 as [|r' rows Hs IH Hhd]; simpl.
  - repeat constructor.
  - destruct (name_le (d_name r) (d_name r')) eqn:E.
    + constructor; [now constructor | now constructor].
    + constructor; [exact IH|].
      apply insert_by_name_hd; [|exact Hhd].
      destruct (name_le_total (d_name r) (d_name r')); congruence.
Qed.

Lemma order_by_name_sorted (rows : list department) :
  Sorted (fun x y => name_le (d_name x) (d_name y) = true)
    (order_by_name name_le rows).
Proof.
  induction rows as [|r rows IH]; simpl; [constructor|].
  now apply insert_by_name_sorted.
Qed.

Lemma sorted_pairs (rows : list department) :
  Sorted (fun x y => name_le (d_name x) (d_name y) = true) rows ->
  Sorted (fun x y : Z * string => name_le (snd x) (snd y) = true)
    (map (fun d => (d_id d, d_name d)) rows).
Proof.
  induction 1 as [|r rows Hs IH Hhd]; simpl; constructor; [exact IH|].
  destruct Hhd; simpl; now constructor.
Qed.

(** X18.  Whatever the collation of the database, as long as it compares
    any two names, [get_all_departments] returns the [(id, name)] pair of
    every department exactly once and of nothing else, each name sorting
    no later than the next, and leaves the store as it is. *)
Theorem department_listing_sorted (db : database) :
  exists rows,
    get_all_departments name_le db = (db, Returns rows)
    /\ Permutation.Permutation rows
         (map (fun d => (d_id d, d_name d)) (departments db))
    /\ Sorted (fun x y : Z * string => name_le (snd x) (snd y) = true) rows.
Proof.
  eexists. split; [reflexivity|]. split.
  - apply Permutation.Permutation_map, order_by_name_perm.
  - apply sorted_pairs, order_by_name_sorted.
Qed.

End Collated.

Lemma department_listing_sorted_witness :
  exists rows,
    get_all_departments String.leb company = (company, Returns rows)
    /\ Permutation.Permutation rows
         (map (fun d => (d_id d, d_name d)) (departments company))
    /\ Sorted (fun x y : Z * string => String.leb (snd x) (snd y) = true) rows.
Proof.
  exact (department_listing_sorted String.leb String.leb_total company).
Defined.

End SchemaAndDepartments.

(* ================================================================== *)
(** ** The routes *)

Section Routes.


(** X19.  [delete_department_route] never raises: it flashes exactly one
    message and redirects to the department list.  When an employee is
    assigned to the department the message is the text of the
    has-dependents error, as an error, and the store is as before; when
    the department exists and has no employee it is removed and the
    message is a success; when it does not exist the store is as before
    and the message is an error. *)
Theorem delete_department_route_outcome (a : webapp) (dept_id : Z) :
  ((exists e, In e (employees (store a))
              /\ e_department_id e = Some dept_id) ->
   delete_department_route dept_id a
   = (mkApp (store a)
        (flashes a
         ++ [("❌ Cannot delete: department has employees. Reassign them first.",
              "error")]),
      Returns (Redirect "department_list")))
  /\ ((forall e, In e (employees (store a)) ->
         e_department_id e <> Some dept_id) ->
      (In dept_id (department_ids (store a)) ->
       delete_department_route dept_id a
       = (mkApp (set_departments
                   (filter (fun d => negb (d_id d =? dept_id))
                      (departments (store a))) (store a))
            (flashes a ++ [("✅ Department deleted successfully!", "success")]),
          Returns (Redirect "department_list")))
      /\ (~ In dept_id (department_ids (store a)) ->
          delete_department_route dept_id a
          = (mkApp (store a)
               (flashes a ++ [("❌ Department not found.", "error")]),
             Returns (Redirect "department_list")))).
Proof.
  unfold delete_department_route, bind, try_except, call, redirect, ret.
  rewrite delete_department_eq. split.
  - intros H. apply existsb_references in H. now rewrite H.
  - intros H.
    assert (E : existsb (references dept_id) (employees (store a)) = false).
    { apply not_true_is_false. intros X.
      apply existsb_references in X. destruct X as (e & He & Hd).
      now apply H in He. }
    rewrite E. split.
    + intros Hin. apply (existsb_key d_id) in Hin. now rewrite Hin.
    + intros Hnot.
      assert (X : existsb (fun d => d_id d =? dept_id)
                    (departments (store a)) = false).
      { apply not_true_is_false. intros X.
        apply existsb_key in X. contradiction. }
      rewrite X, (filter_negb_all _ _ X). unfold set_departments.
      now rewrite eta_database.
Qed.

Lemma delete_department_route_outcome_witness :
  delete_department_route 1 (mkApp company [])
  = (mkApp company
       [("❌ Cannot delete: department has employees. Reassign them first.",
         "error")],
     Returns (Redirect "department_list")).
Proof.
  apply (proj1 (delete_department_route_outcome (mkApp company []) 1)).
  exists ana. split; [simpl; auto | reflexivity].
Defined.

(** X20.  [delete_employee_route] flashes exactly one message and
    redirects to the index: a success, with the rows of that id removed,
    when the employee exists; an error, with the store as before, when it
    does not. *)
Theorem delete_employee_route_outcome (a : webapp) (emp_id : Z) :
  (In emp_id (employee_ids (store a)) ->
   delete_employee_route emp_id a
   = (mkApp (set_employees
               (filter (fun e => negb (e_id e =? emp_id))
                  (employees (store a))) (store a))
        (flashes a ++ [("✅ Employee deleted successfully!", "success")]),
      Returns (Redirect "index")))
  /\ (~ In emp_id (employee_ids (store a)) ->
      delete_employee_route emp_id a
      = (mkApp (store a)
           (flashes a ++ [("❌ Employee not found.", "error")]),
         Returns (Redirect "index"))).
Proof.
  unfold delete_employee_route, bind, call, redirect, ret.
  rewrite delete_employee_eq. split.
  - intros Hin. apply (existsb_key e_id) in Hin. now rewrite Hin.
  - intros Hnot.
    assert (X : existsb (fun e => e_id e =? emp_id) (employees (store a))
                = false).
    { apply not_true_is_false. intros X. apply existsb_key in X.
      contradiction. }
    rewrite X, (filter_negb_all _ _ X). unfold set_employees.
    now rewrite eta_database.
Qed.

Lemma delete_employee_route_outcome_witness :
  delete_employee_route 20 (mkApp company [])
  = (mkApp company [("❌ Employee not found.", "error")],
     Returns (Redirect "index")).
Proof.
  apply (proj2 (delete_employee_route_outcome (mkApp company []) 20)).
  simpl. intros [H|[H|[H|[]]]]; discriminate.
Defined.





End Routes.
